(** * Render queue database: a shallow embedding of [database.py]

    The render queue keeps its whole state in a directory tree below
    [db_root]: one JSON file per job under [jobs/], one JSON file per task
    whose *location* ([tasks/queued], [tasks/completed], [tasks/failed],
    [workers/<id>]) is the task's state, and one [workerinfo.json] per
    worker.  The embedding below models that tree as an ordered list of
    files, the methods of [RenderQueue] as computations over it that may
    print and may raise, and then states and proves the properties of the
    specification about them. *)

From Stdlib Require Import ZArith List String Ascii Bool Lia.
From Stdlib Require Import Decimal DecimalString DecimalNat DecimalZ.
From Stdlib Require Import Permutation Sorted.
From stdpp Require Import base option list gmap strings.

Local Open Scope string_scope.
Local Open Scope Z_scope.
#[local] Arguments String.append !s1 s2 : simpl nomatch.

(** ** Python values and JSON documents *)

(** The JSON values that the queue stores in its records: integers
    ([priority], [taskNo]), strings ([jobID], [frames], ...) and lists of
    strings (the [tasks] list of frame ranges given at submission). *)
Inductive value : Type :=
  | VInt (z : Z)
  | VStr (s : string)
  | VList (l : list string).

#[global] Instance value_eq_dec : EqDecision value.
Proof. solve_decision. Defined.

(** A JSON object, as [json.load] returns it: a Python [dict] with string
    keys. *)
Abbreviation dict := (gmap string value).

(** What a file holds: either text that [json.load] rejects with
    [JSONDecodeError], or a JSON object. *)
Inductive content : Type :=
  | Corrupt
  | Json (d : dict).

(** The exceptions that the modelled code can raise. *)
Inductive exn : Type :=
  | FileNotFoundError
  | JSONDecodeError
  | KeyError (k : string)
  | TypeError
  | ValueError
  | AssertionError
  | UnboundLocalError.

Inductive result (A : Type) : Type :=
  | Ok (a : A)
  | Raise (e : exn).
Arguments Ok {A} a.
Arguments Raise {A} e.

(** ** Strings: the Python operations the code relies on *)

Module Py.

(** [needle in hay] on strings. *)
Fixpoint contains (needle hay : string) : bool :=
  String.prefix needle hay ||
  match hay with
  | EmptyString => false
  | String _ rest => contains needle rest
  end.

(** [hay.endswith(suf)]: one of the tails of [hay] is [suf]. *)
Fixpoint endswith (suf hay : string) : bool :=
  String.eqb suf hay ||
  match hay with
  | EmptyString => false
  | String _ rest => endswith suf rest
  end.

(** [str(n)] for a non-negative integer. *)
Definition str_nat (n : nat) : string :=
  NilZero.string_of_uint (Nat.to_uint n).

(** [str(z)] for an integer. *)
Definition str_Z (z : Z) : string :=
  NilZero.string_of_int (Z.to_int z).

Fixpoint zeros (n : nat) : string :=
  match n with
  | O => EmptyString
  | S k => String "0" (zeros k)
  end.

(** [s.zfill(width)]: pads with zeros on the left, after a leading sign. *)
Definition zfill (width : nat) (s : string) : string :=
  let pad := zeros (width - String.length s) in
  match s with
  | String "+" r => String "+" (pad +:+ r)
  | String "-" r => String "-" (pad +:+ r)
  | _ => pad +:+ s
  end.

(** [sep.join(l)]. *)
Fixpoint join (sep : string) (l : list string) : string :=
  match l with
  | [] => EmptyString
  | [x] => x
  | x :: rest => x +:+ sep +:+ join sep rest
  end.

(** [repr] of a list of strings (exact for entries without quotes,
    backslashes or non-printing characters). *)
Definition repr_list (l : list string) : string :=
  "[" +:+ join ", " (map (fun s => "'" +:+ s +:+ "'") l) +:+ "]".

(** ['%s' % v]. *)
Definition str (v : value) : string :=
  match v with
  | VInt z => str_Z z
  | VStr s => s
  | VList l => repr_list l
  end.

(** [s.split(sep)] for a one-character separator. *)
Fixpoint split (sep : ascii) (s : string) : list string :=
  match s with
  | EmptyString => [EmptyString]
  | String c rest =>
      if Ascii.eqb c sep then EmptyString :: split sep rest
      else match split sep rest with
           | [] => [String c EmptyString]
           | p :: ps => String c p :: ps
           end
  end.

Definition is_space (c : ascii) : bool :=
  let n := nat_of_ascii c in
  ((9 <=? n)%nat && (n <=? 13)%nat) || (n =? 32)%nat.

Fixpoint lstrip (s : string) : string :=
  match s with
  | String c rest => if is_space c then lstrip rest else s
  | EmptyString => EmptyString
  end.

Fixpoint rstrip (s : string) : string :=
  match s with
  | EmptyString => EmptyString
  | String c rest =>
      match rstrip rest with
      | EmptyString => if is_space c then EmptyString else String c EmptyString
      | kept => String c kept
      end
  end.

(** [s.strip()]. *)
Definition strip (s : string) : string := rstrip (lstrip s).

(** [int(s)] on a decimal literal: surrounding white space and one sign
    are accepted; anything else raises [ValueError] ([None] here). *)
Definition int (s : string) : option Z :=
  match strip s with
  | EmptyString => None
  | String c r =>
      if Ascii.eqb c "-" then
        option_map (fun d => Z.opp (Z.of_uint d)) (NilZero.uint_of_string r)
      else if Ascii.eqb c "+" then
        option_map Z.of_uint (NilZero.uint_of_string r)
      else option_map Z.of_uint (NilZero.uint_of_string (String c r))
  end.

End Py.

(** ** The directory tree and the computations over it *)

(** A file is addressed by its path components below [db_root]:
    [["tasks"; "queued"; "ab12_0003.json"]] is
    [<db_root>/tasks/queued/ab12_0003.json]. *)
Abbreviation path := (list string).

(** The tree is the list of its files, in the order in which a directory
    scan ([glob.glob]) reports them. *)
Abbreviation tree := (list (path * content)).

(** The state the code runs in: the files, what has been printed, and the
    random source that [uuid.uuid4] draws from. *)
Record world : Type := World {
  files : tree;
  stdout : list string;
  uuid_source : nat -> string;
  uuid_drawn : nat
}.

(** A computation reads and changes the world and returns or raises; the
    changes made before an exception stay. *)
Definition M (A : Type) : Type := world -> world * result A.

(** Returning, raising and sequencing. *)
Definition ret {A} (a : A) : M A := fun w => (w, Ok a).

Definition raise {A} (e : exn) : M A := fun w => (w, Raise e).

Definition bind {A B} (m : M A) (k : A -> M B) : M B :=
  fun w =>
    match m w with
    | (w', Ok a) => k a w'
    | (w', Raise e) => (w', Raise e)
    end.

Declare Scope py_scope.
Delimit Scope py_scope with py.
Notation "x <- m ;; k" := (bind m (fun x => k))
  (at level 100, m at next level, right associativity) : py_scope.
Notation "m ;;; k" := (bind m (fun _ => k))
  (at level 100, right associativity) : py_scope.
Local Open Scope py_scope.

(** [for x in l: body x]. *)
Fixpoint for_each {A} (l : list A) (body : A -> M unit) : M unit :=
  match l with
  | [] => ret tt
  | x :: rest => body x ;;; for_each rest body
  end.

(** [[f x for x in l]], where [f] may raise. *)
Fixpoint map_m {A B} (f : A -> M B) (l : list A) : M (list B) :=
  match l with
  | [] => ret []
  | x :: rest => y <- f x ;; ys <- map_m f rest ;; ret (y :: ys)
  end.

(** A pure step that may raise. *)
Definition lift {A} (r : result A) : M A := fun w => (w, r).

(** [print(line)]. *)
Definition print (line : string) : M unit :=
  fun w => (World (files w) (stdout w ++ [line]) (uuid_source w) (uuid_drawn w), Ok tt).


Module FS.

(** Files by path: test, look up, write, delete. *)
Definition path_eqb (p q : path) : bool := bool_decide (p = q).

Fixpoint lookup (p : path) (t : tree) : option content :=
  match t with
  | [] => None
  | (q, c) :: rest => if path_eqb p q then Some c else lookup p rest
  end.

(** Writing replaces the file where it stands, or adds it to the scan. *)
Fixpoint write (p : path) (c : content) (t : tree) : tree :=
  match t with
  | [] => [(p, c)]
  | (q, c') :: rest =>
      if path_eqb p q then (q, c) :: rest else (q, c') :: write p c rest
  end.

Definition remove (p : path) (t : tree) : tree :=
  List.filter (fun e => negb (path_eqb p (fst e))) t.

(** [os.path.basename]. *)
Definition basename (p : path) : string := List.last p EmptyString.

(** One component of a glob pattern: [*], a literal name, or
    [<pre>*<suf>]. *)
Inductive pat : Type :=
  | Star
  | Lit (s : string)
  | Affix (pre suf : string).

Definition hidden (name : string) : bool := String.prefix "." name.

(** [fnmatch] of one path component; a name that starts with a dot is
    matched only by a pattern that starts with a dot. *)
Definition match_comp (pt : pat) (name : string) : bool :=
  match pt with
  | Star => negb (hidden name)
  | Lit s => String.eqb s name
  | Affix pre suf =>
      String.prefix pre name && Py.endswith suf name
      && (String.length pre + String.length suf <=? String.length name)%nat
      && (negb (hidden name) || hidden pre)
  end.

Fixpoint match_path (pts : list pat) (p : path) : bool :=
  match pts, p with
  | [], [] => true
  | pt :: pts', c :: p' => match_comp pt c && match_path pts' p'
  | _, _ => false
  end.

(** [glob.glob] below [db_root], in scan order. *)
Definition glob (pts : list pat) (t : tree) : list path :=
  List.filter (match_path pts) (map fst t).

(** The file name that [glob.glob] returns for a match of a pattern
    written as ['%s/...' % db_root]. *)
Definition filename (db_root : string) (p : path) : string :=
  db_root +:+ "/" +:+ Py.join "/" p.

End FS.

(** The world with another tree. *)
Definition set_files (t : tree) (w : world) : world :=
  World t (stdout w) (uuid_source w) (uuid_drawn w).

(** [with open(p, 'r') as f: json.load(f)]. *)
Definition read_json (p : path) : M dict :=
  fun w =>
    match FS.lookup p (files w) with
    | None => (w, Raise FileNotFoundError)
    | Some Corrupt => (w, Raise JSONDecodeError)
    | Some (Json d) => (w, Ok d)
    end.

(** [with open(p, 'w') as f: json.dump(d, f, indent=4)]. *)
Definition write_json (p : path) (d : dict) : M unit :=
  fun w => (set_files (FS.write p (Json d) (files w)) w, Ok tt).

(** [d[k]]. *)
Definition getitem (d : dict) (k : string) : result value :=
  match d !! k with
  | Some v => Ok v
  | None => Raise (KeyError k)
  end.

(** ** The helper modules [oswrapper] and [sequence] *)

Module oswrapper.

(** Modelled from the spec: [oswrapper.move(src, dst)], whose source is
    not part of the repository files at hand.  The specification asks
    that every transition be "a single atomic relocation of the task's
    record from one named area to another" with rename semantics: the
    record leaves [src] and appears under its own name in the area [dst].
    When there is no file at [src] nothing is relocated. *)
Definition move (src dst : path) : M unit :=
  fun w =>
    match FS.lookup src (files w) with
    | None => (w, Ok tt)
    | Some c =>
        (set_files (FS.write (dst ++ [FS.basename src]) c
                             (FS.remove src (files w))) w, Ok tt)
    end.

(** Modelled from the spec: [oswrapper.recurseRemove(path)], absent as
    well; the specification calls for the record to be deleted. *)
Definition recurseRemove (p : path) : M unit :=
  fun w => (set_files (FS.remove p (files w)) w, Ok tt).

End oswrapper.

Module sequence.

(** The integers [a, a+1, ..., b]. *)
Definition range (a b : Z) : list Z :=
  map (fun i => a + Z.of_nat i) (seq 0 (Z.to_nat (b - a + 1))).

(** One group of the notation: a number ["7"] or a range ["1-5"]. *)
Definition group (g : string) : option (list Z) :=
  match Py.split "-" g with
  | [n] => option_map (fun x => [x]) (Py.int n)
  | [a; b] =>
      match Py.int a, Py.int b with
      | Some x, Some y => Some (range x y)
      | _, _ => None
      end
  | _ => None
  end.

Fixpoint groups (gs : list string) : option (list Z) :=
  match gs with
  | [] => Some []
  | g :: rest =>
      match group g, groups rest with
      | Some l, Some ls => Some (l ++ ls)%list
      | _, _ => None
      end
  end.

(** Modelled from the spec: [sequence.numList], absent from the
    repository files at hand.  A frame set is "a concrete ordered set of
    integer frame numbers expressed as a compact range/list notation,
    or the sentinel unknown": the notation is a comma-separated list of
    numbers and [a-b] ranges, read into the flat list of its frame
    numbers; anything else, such as the sentinel, has no reading. *)
Definition numList (s : string) : option (list Z) :=
  groups (Py.split "," s).

(** Insertion into an ascending list without duplicates. *)
Fixpoint insert_frame (x : Z) (l : list Z) : list Z :=
  match l with
  | [] => [x]
  | y :: rest =>
      if x <? y then x :: l
      else if x =? y then l
      else y :: insert_frame x rest
  end.

(** [sorted(set(frames))]. *)
Definition sort_frames (frames : list Z) : list Z :=
  fold_right insert_frame [] frames.

(** The maximal runs of consecutive numbers of an ascending list, each
    as its first and last number; [runs_from a b l] continues the run
    [a..b]. *)
Fixpoint runs_from (a b : Z) (l : list Z) : list (Z * Z) :=
  match l with
  | [] => [(a, b)]
  | x :: rest =>
      if x =? b + 1 then runs_from a x rest
      else (a, b) :: runs_from x x rest
  end.

Definition runs (l : list Z) : list (Z * Z) :=
  match l with
  | [] => []
  | x :: rest => runs_from x x rest
  end.

Definition show_run (r : Z * Z) : string :=
  if fst r =? snd r then Py.str_Z (fst r)
  else Py.str_Z (fst r) +:+ "-" +:+ Py.str_Z (snd r).

(** Modelled from the spec: [sequence.numRange], absent as well.  It
    turns the flat list of frame numbers back into the compact
    notation: the union of the frames in ascending order, every run of
    consecutive frames written as the range [first-last], the runs
    separated by [", "]. A union that is one contiguous range therefore
    reads [first-last], and one with gaps has several groups. *)
Definition numRange (frames : list Z) : string :=
  Py.join ", " (map show_run (runs (sort_frames frames))).

End sequence.

(** ** [sorted(l, key=itemgetter(k), reverse=r)] *)

Module Sort.

Fixpoint list_ltb (x y : list string) : bool :=
  match x, y with
  | _, [] => false
  | [], _ :: _ => true
  | a :: x', b :: y' => String.ltb a b || (String.eqb a b && list_ltb x' y')
  end.

(** [a < b] where Python defines it. *)
Definition value_ltb (a b : value) : bool :=
  match a, b with
  | VInt x, VInt y => x <? y
  | VStr x, VStr y => String.ltb x y
  | VList x, VList y => list_ltb x y
  | _, _ => false
  end.

(** Values of different types are not ordered: comparing them raises
    [TypeError]. *)
Definition comparable (a b : value) : bool :=
  match a, b with
  | VInt _, VInt _ | VStr _, VStr _ | VList _, VList _ => true
  | _, _ => false
  end.

Definition all_comparable (ks : list value) : bool :=
  match ks with
  | [] => true
  | k :: rest => forallb (comparable k) rest
  end.

Section sorted.
Context {A : Type}.

Fixpoint keys (key : A -> result value) (l : list A) : result (list value) :=
  match l with
  | [] => Ok []
  | x :: rest =>
      match key x, keys key rest with
      | Ok k, Ok ks => Ok (k :: ks)
      | Raise e, _ => Raise e
      | _, Raise e => Raise e
      end
  end.

(** [x], which stood left of all of [l], goes behind the entries that
    must come strictly first and before the others: the sort is
    stable, also when reversed. *)
Fixpoint insert (first : value -> value -> bool) (x : value * A)
    (l : list (value * A)) : list (value * A) :=
  match l with
  | [] => [x]
  | y :: rest =>
      if first (fst y) (fst x) then y :: insert first x rest
      else x :: l
  end.

Definition isort (first : value -> value -> bool)
    (l : list (value * A)) : list (value * A) :=
  fold_right (insert first) [] l.

Definition sorted (key : A -> result value) (reverse : bool) (l : list A)
    : result (list A) :=
  match keys key l with
  | Raise e => Raise e
  | Ok ks =>
      if all_comparable ks then
        let first := if reverse then (fun a b => value_ltb b a) else value_ltb in
        Ok (map snd (isort first (combine ks l)))
      else Raise TypeError
  end.
End sorted.

End Sort.

(** ** The class [RenderQueue] *)

(** An instance holds the root directory of its database; the other
    attributes ([db_jobs], [db_queued], ...) are fixed paths below it.
    Directories are not files of the tree: the ones that [__init__]
    creates are there as soon as a file lies in them. Identifiers are
    taken to be free of the characters that [glob] reads as wildcards, as
    the tokens of [uuid4] are. *)
Record RenderQueue : Type := { db_root : string }.

(** The areas of the database, as [__init__] names them. *)
Definition db_jobs : path := ["jobs"].
Definition db_tasks : path := ["tasks"].
Definition db_queued : path := ["tasks"; "queued"].
Definition db_completed : path := ["tasks"; "completed"].
Definition db_failed : path := ["tasks"; "failed"].
Definition db_workers : path := ["workers"].

(** ['%s_%s.json' % (jobID, str(taskID).zfill(4))]. *)
Definition task_file (jobID : string) (taskID : nat) : string :=
  jobID +:+ "_" +:+ Py.zfill 4 (Py.str_nat taskID) +:+ ".json".

(** ['%s/*/*/%s_*.json' % (self.db_root, jobID)]. *)
Definition job_tasks_pattern (jobID : string) : list FS.pat :=
  [FS.Star; FS.Star; FS.Affix (jobID +:+ "_") ".json"].

(** ['%s/*/*/%s_%s.json' % (self.db_root, jobID, str(taskID).zfill(4))]. *)
Definition task_pattern (jobID : string) (taskID : nat) : list FS.pat :=
  [FS.Star; FS.Star; FS.Lit (task_file jobID taskID)].

(** [glob.glob(pattern)]. *)
Definition glob (pts : list FS.pat) : M (list path) :=
  fun w => (w, Ok (FS.glob pts (files w))).




(** [requeueJob(jobID)]. *)
Definition requeueJob (self : RenderQueue) (jobID : string) : M unit :=
  names <- glob (job_tasks_pattern jobID) ;;
  for_each names (fun p =>
    if negb (Py.contains "queued" (FS.filename (db_root self) p))
    then oswrapper.move p db_queued
    else ret tt).

(** [getJobs()]. *)
Definition getJobs (self : RenderQueue) : M (list dict) :=
  names <- glob [FS.Lit "jobs"; FS.Affix "" ".json"] ;;
  map_m read_json names.



(** [getQueuedTasks(jobID)]. *)
Definition getQueuedTasks (self : RenderQueue) (jobID : string) : M (list dict) :=
  names <- glob [FS.Lit "tasks"; FS.Lit "queued"; FS.Affix (jobID +:+ "_") ".json"] ;;
  map_m read_json names.

(** [getPriority(jobID)]. *)
Definition getPriority (self : RenderQueue) (jobID : string) : M value :=
  job <- read_json (db_jobs ++ [jobID +:+ ".json"])%list ;;
  lift (getitem job "priority").

(** [setPriority(jobID, priority)]. *)
Definition setPriority (self : RenderQueue) (jobID : string) (priority : Z) : M unit :=
  let filename := (db_jobs ++ [jobID +:+ ".json"])%list in
  job <- read_json filename ;;
  if (0 <=? priority) && (priority <=? 100) then
    old <- lift (getitem job "priority") ;;
    if bool_decide (old <> VInt priority)
    then write_json filename (<["priority" := VInt priority]> job)
    else ret tt
  else ret tt.

(** ["[Priority %d] Job ID %s: %s" % (priority, jobID, jobName)]; [%d]
    wants a number. *)
Definition priority_line (priority jobID jobName : value) : result string :=
  match priority with
  | VInt z =>
      Ok ("[Priority " +:+ Py.str_Z z +:+ "] Job ID " +:+ Py.str jobID
          +:+ ": " +:+ Py.str jobName)
  | _ => Raise TypeError
  end.

(** The loop of [dequeueJob] over the jobs in priority order. *)
Fixpoint dequeueJob_loop (self : RenderQueue) (jobs : list dict) : M (option dict) :=
  match jobs with
  | [] => ret None
  | job :: rest =>
      priority <- lift (getitem job "priority") ;;
      jobID <- lift (getitem job "jobID") ;;
      jobName <- lift (getitem job "jobName") ;;
      line <- lift (priority_line priority jobID jobName) ;;
      print line ;;;
      tasks <- getQueuedTasks self (Py.str jobID) ;;
      match tasks with
      | _ :: _ =>
          by_number <- lift (Sort.sorted (fun t => getitem t "taskNo") false tasks) ;;
          ret (head by_number)
      | [] => dequeueJob_loop self rest
      end
  end.

(** [dequeueJob()]. *)
Definition dequeueJob (self : RenderQueue) : M (option dict) :=
  jobs <- getJobs self ;;
  by_priority <- lift (Sort.sorted (fun j => getitem j "priority") true jobs) ;;
  dequeueJob_loop self by_priority.

(** [dequeueTask(jobID, taskID, workerID)]. *)
Definition dequeueTask (self : RenderQueue) (jobID : string) (taskID : nat)
    (workerID : string) : M unit :=
  oswrapper.move (db_queued ++ [task_file jobID taskID])%list
                 (db_workers ++ [workerID])%list.

(** The common shape of [completeTask], [failTask] and [requeueTask]: the
    record goes to [area] unless its file name already mentions it. *)
Definition relocate_task (self : RenderQueue) (jobID : string) (taskID : nat)
    (word : string) (area : path) : M unit :=
  names <- glob (task_pattern jobID taskID) ;;
  for_each names (fun p =>
    if negb (Py.contains word (FS.filename (db_root self) p))
    then oswrapper.move p area
    else ret tt).

(** [completeTask(jobID, taskID)]. *)
Definition completeTask (self : RenderQueue) (jobID : string) (taskID : nat) : M unit :=
  relocate_task self jobID taskID "completed" db_completed.

(** [failTask(jobID, taskID)]. *)
Definition failTask (self : RenderQueue) (jobID : string) (taskID : nat) : M unit :=
  relocate_task self jobID taskID "failed" db_failed.

(** [requeueTask(jobID, taskID)]. *)
Definition requeueTask (self : RenderQueue) (jobID : string) (taskID : nat) : M unit :=
  relocate_task self jobID taskID "queued" db_queued.

(** The locals that the first loop of [combineTasks] builds up. *)
Record scan : Type := Scan {
  tasks_to_delete : list path;
  frames : list Z;
  newtaskdata : option dict
}.

(** [sequence.numList(taskdata['frames'])]; the notation is a string. *)
Definition frames_of (v : value) : result (list Z) :=
  match v with
  | VStr s =>
      match sequence.numList s with
      | Some l => Ok l
      | None => Raise ValueError
      end
  | _ => Raise TypeError
  end.

(** The first loop of [combineTasks]: it reads the listed tasks, gathers
    their frames, keeps the data of the first task and marks the others
    for deletion. *)
Fixpoint combine_scan (jobID : string) (first : nat) (taskIDs : list nat)
    (st : scan) : M scan :=
  match taskIDs with
  | [] => ret st
  | taskID :: rest =>
      let filename := (db_queued ++ [task_file jobID taskID])%list in
      taskdata <- read_json filename ;;
      notation <- lift (getitem taskdata "frames") ;;
      numbers <- lift (frames_of notation) ;;
      let st' :=
        if (taskID =? first)%nat
        then Scan (tasks_to_delete st) (frames st ++ numbers) (Some taskdata)
        else Scan (tasks_to_delete st ++ [filename]) (frames st ++ numbers)
                  (newtaskdata st) in
      combine_scan jobID first rest st'
  end.

(** The body of the [try] block of [combineTasks]: the sanity check on
    the new frame range. *)
Definition new_frame_range (frames : list Z) : result string :=
  match Py.split "-" (sequence.numRange frames) with
  | [start; stop] =>
      match Py.int start, Py.int stop with
      | Some a, Some b =>
          if a <? b then Ok (Py.str_Z a +:+ "-" +:+ Py.str_Z b)
          else Raise AssertionError
      | _, _ => Raise ValueError
      end
  | _ => Raise ValueError
  end.

(** [repr] of a list of task numbers. *)
Definition repr_ids (l : list nat) : string :=
  "[" +:+ Py.join ", " (map Py.str_nat l) +:+ "]".

(** The two error messages of [combineTasks]. *)
Definition need_two : string := "Error: Need at least two tasks to combine.".
Definition not_contiguous : string :=
  "Error: Cannot combine tasks - combined frame range must be contiguous.".

(** [combineTasks(jobID, taskIDs)]. *)
Definition combineTasks (self : RenderQueue) (jobID : string) (taskIDs : list nat)
    : M (option nat) :=
  print (jobID +:+ " " +:+ repr_ids taskIDs) ;;;
  match taskIDs with
  | first :: _ :: _ =>
      st <- combine_scan jobID first taskIDs (Scan [] [] None) ;;
      match new_frame_range (frames st) with
      | Raise _ => print not_contiguous ;;; ret None
      | Ok newframerange =>
          print ("New frame range: " +:+ newframerange) ;;;
          for_each (tasks_to_delete st) oswrapper.recurseRemove ;;;
          match newtaskdata st with
          | None => raise UnboundLocalError
          | Some taskdata =>
              write_json (db_queued ++ [task_file jobID first])%list
                         (<["frames" := VStr newframerange]> taskdata) ;;;
              ret (Some first)
          end
      end
  | _ => print need_two ;;; ret None
  end.

(** [try: m  except JSONDecodeError: handler]. *)
Definition except_JSONDecodeError {A} (m handler : M A) : M A :=
  fun w =>
    match m w with
    | (w', Raise JSONDecodeError) => handler w'
    | other => other
    end.

(** The loop of [getWorkers]: [workers] is the list built so far. *)
Fixpoint getWorkers_loop (self : RenderQueue) (names : list path)
    (workers : list dict) : M (list dict) :=
  match names with
  | [] => ret workers
  | p :: rest =>
      workers' <- except_JSONDecodeError
        (worker <- read_json p ;; ret (workers ++ [worker])%list)
        (print ("Error reading worker: " +:+ FS.filename (db_root self) p) ;;;
         ret workers) ;;
      getWorkers_loop self rest workers'
  end.

(** [getWorkers()]. *)
Definition getWorkers (self : RenderQueue) : M (list dict) :=
  names <- glob [FS.Lit "workers"; FS.Star; FS.Lit "workerinfo.json"] ;;
  getWorkers_loop self names [].

(** ** The other methods of [RenderQueue] *)

(** Modelled from the spec: [oswrapper.createDir], absent from the
    repository files at hand. The areas of the database are directories;
    in the tree a directory is there through the files in it, so creating
    one changes no file. *)
Definition createDir (p : path) : M unit := ret tt.

(** [p] is [q] or lies below the directory [q]. *)
Fixpoint below (q p : path) : bool :=
  match q, p with
  | [], _ => true
  | c :: q', d :: p' => String.eqb c d && below q' p'
  | _ :: _, [] => false
  end.

(** Modelled from the spec: [oswrapper.recurseRemove] on a directory, as
    [deleteWorker] calls it: "removes the worker's namespace and any
    claim area contents", that is the directory with every file in it.
    On a path that is a file it is [oswrapper.recurseRemove] above
    ([recurseRemoveDir_file]). *)
Definition recurseRemoveDir (p : path) : M unit :=
  fun w => (set_files (List.filter (fun e => negb (below p (fst e))) (files w)) w, Ok tt).

(** [RenderQueue(location)]: the constructor announces the database and
    makes sure that its areas exist. *)
Definition init (location : string) : M RenderQueue :=
  print ("Connecting to render queue database at: " +:+ location) ;;;
  createDir db_jobs ;;;
  createDir db_tasks ;;;
  createDir db_queued ;;;
  createDir db_completed ;;;
  createDir db_failed ;;;
  createDir db_workers ;;;
  ret {| db_root := location |}.


(** [archiveJob(jobID)]: the body is [pass]. *)
Definition archiveJob (self : RenderQueue) (jobID : string) : M unit := ret tt.

(** [updateTaskStatus(jobID, taskID, progress)]: the body is [pass]. *)
Definition updateTaskStatus (self : RenderQueue) (jobID : string) (taskID : nat)
    (progress : Z) : M unit := ret tt.


(** [deleteWorker(workerID)]. *)
Definition deleteWorker (self : RenderQueue) (workerID : string) : M bool :=
  recurseRemoveDir (db_workers ++ [workerID])%list ;;;
  ret true.

(** [getWorkerStatus(workerID)]. *)
Definition getWorkerStatus (self : RenderQueue) (workerID : string) : M value :=
  worker <- read_json (db_workers ++ [workerID; "workerinfo.json"])%list ;;
  lift (getitem worker "status").

(** [setWorkerStatus(workerID, status)]. *)
Definition setWorkerStatus (self : RenderQueue) (workerID : string) (status : value)
    : M unit :=
  let datafile := (db_workers ++ [workerID; "workerinfo.json"])%list in
  worker <- read_json datafile ;;
  old <- lift (getitem worker "status") ;;
  if bool_decide (old <> status) then
    let worker := <["status" := status]> worker in
    print (Py.str status) ;;;
    write_json datafile worker
  else ret tt.

(** * The vocabulary of the properties, and example databases *)


(** The first exception of a list of outcomes, or all the values. *)
Fixpoint collect {A} (rs : list (result A)) : result (list A) :=
  match rs with
  | [] => Ok []
  | Ok a :: rest =>
      match collect rest with
      | Ok l => Ok (a :: l)
      | Raise e => Raise e
      end
  | Raise e :: _ => Raise e
  end.

(** What [read_json] returns, as a function of the tree. *)
Definition parsed (t : tree) (p : path) : result dict :=
  match FS.lookup p t with
  | None => Raise FileNotFoundError
  | Some Corrupt => Raise JSONDecodeError
  | Some (Json d) => Ok d
  end.

(** [s] occurs in [t]. *)
Definition occurs_in (s t : string) : Prop :=
  exists pre post, t = pre +:+ s +:+ post.





(** A queue whose database lives below [/srv/rq]. *)
Definition example_rq : RenderQueue := {| db_root := "/srv/rq" |}.

(** A random source for the examples: the n-th identifier drawn. *)
Definition example_source (n : nat) : string := "c0ffee" +:+ Py.str_nat n.

(** The record of a job [b] of priority 50. *)
Definition example_job : dict :=
  <["jobID" := VStr "b"]> (<["priority" := VInt 50]> (<["jobName" := VStr "shot"]> ∅)).

(** The record of an idle worker [w2]. *)
Definition example_worker : dict :=
  <["id" := VStr "w2"]> (<["status" := VStr "idle"]> ∅).

(** One corrupt and one sound record, among the jobs and among the
    workers. *)
Definition corrupt_world : world :=
  World [ (["jobs"; "a.json"], Corrupt);
          (["jobs"; "b.json"], Json example_job);
          (["workers"; "w1"; "workerinfo.json"], Corrupt);
          (["workers"; "w2"; "workerinfo.json"], Json example_worker) ]
        [] example_source 0.

(** The record file of a job. *)
Definition job_file (jobID : string) : path := ["jobs"; jobID +:+ ".json"].

(** A database with the single job [b]. *)
Definition priority_world : world :=
  World [ (["jobs"; "b.json"], Json example_job) ] [] example_source 0.

(** Reading a decimal numeral back, leading zeros allowed. *)
Definition read_nat (s : string) : option nat :=
  option_map Nat.of_uint (NilEmpty.uint_of_string s).


(** The record that [newJob] writes for task [i]. *)
Definition task_record (jobID : string) (i : nat) (frames : value) : dict :=
  <["frames" := frames]>
    (<["taskNo" := VInt (Z.of_nat i)]> (<["jobID" := VStr jobID]> ∅)).

(** The file of task [i] in the queued area. *)
Definition queued_file (jobID : string) (i : nat) : path :=
  ["tasks"; "queued"; task_file jobID i].















(** A job with one queued task. *)
Definition queue_world : world :=
  World [ (["jobs"; "b.json"], Json example_job);
          (["tasks"; "queued"; "b_0000.json"], Json (task_record "b" 0 (VStr "1-5"))) ]
        [] example_source 0.

(** Two more jobs: [a] of priority 90 and [c] of priority 10. *)
Definition job_a : dict :=
  <["jobID" := VStr "a"]> (<["priority" := VInt 90]> (<["jobName" := VStr "done"]> ∅)).
Definition job_c : dict :=
  <["jobID" := VStr "c"]> (<["priority" := VInt 10]> (<["jobName" := VStr "later"]> ∅)).

(** Three jobs: [a], most urgent, has its only task completed; [b] has
    two queued tasks, scanned in the order 1, 0; [c] has one. *)
Definition scheduling_world : world :=
  World [ (["jobs"; "c.json"], Json job_c);
          (["jobs"; "a.json"], Json job_a);
          (["jobs"; "b.json"], Json example_job);
          (["tasks"; "completed"; "a_0000.json"], Json (task_record "a" 0 (VStr "1-9")));
          (["tasks"; "queued"; "c_0000.json"], Json (task_record "c" 0 (VStr "1-2")));
          (["tasks"; "queued"; "b_0001.json"], Json (task_record "b" 1 (VStr "6-10")));
          (["tasks"; "queued"; "b_0000.json"], Json (task_record "b" 0 (VStr "1-5"))) ]
        [] example_source 0.


(** The character [c] occurs in [s]. *)
Definition has (c : ascii) (s : string) : Prop := In c (list_ascii_of_string s).

(** [c] is one of the characters 0 to 9. *)
Definition is_digit (c : ascii) : bool :=
  let n := nat_of_ascii c in (48 <=? n)%nat && (n <=? 57)%nat.

(** [s] consists of decimal digits. *)
Definition digits (s : string) : Prop :=
  Forall (fun c => is_digit c = true) (list_ascii_of_string s).

(** The check, on the text that [numRange] returns. *)
Definition sanity_check (s : string) : result string :=
  match Py.split "-" s with
  | [start; stop] =>
      match Py.int start, Py.int stop with
      | Some a, Some b =>
          if a <? b then Ok (Py.str_Z a +:+ "-" +:+ Py.str_Z b)
          else Raise AssertionError
      | _, _ => Raise ValueError
      end
  | _ => Raise ValueError
  end.

(** The outcome is an exception. *)
Definition fails {A} (r : result A) : Prop := exists e, r = Raise e.

(** The frames form one ascending range without gaps. *)
Definition contiguous (frames : list Z) : Prop :=
  exists a b, a <= b /\ forall x, In x frames <-> a <= x <= b.

(** The frame numbers of a queued task, as the first loop of
    [combineTasks] reads them. *)
Definition task_frames (t : tree) (jobID : string) (taskID : nat) : result (list Z) :=
  match parsed t (queued_file jobID taskID) with
  | Ok d =>
      match getitem d "frames" with
      | Ok v => frames_of v
      | Raise e => Raise e
      end
  | Raise e => Raise e
  end.

(** The world after some more lines of output. *)
Definition logged (lines : list string) (w : world) : world :=
  World (files w) (stdout w ++ lines) (uuid_source w) (uuid_drawn w).

(** The listed tasks that are not the first one. *)
Definition other_than (first : nat) (ids : list nat) : list nat :=
  List.filter (fun id => negb (id =? first)%nat) ids.

(** The tree after a successful [combineTasks]: the other tasks are
    removed, then the first is rewritten. *)
Definition combined_tree (jobID : string) (first : nat) (taskIDs : list nat)
    (newframerange : string) (taskdata : dict) (t : tree) : tree :=
  FS.write (queued_file jobID first)
           (Json (<["frames" := VStr newframerange]> taskdata))
           (fold_left (fun t p => FS.remove p t)
                      (map (queued_file jobID) (other_than first taskIDs)) t).

(** Three queued tasks of job [b]: frames 1-5, 6-10 and 8-10. *)
Definition combine_world : world :=
  World [ (["jobs"; "b.json"], Json example_job);
          (["tasks"; "queued"; "b_0000.json"], Json (task_record "b" 0 (VStr "1-5")));
          (["tasks"; "queued"; "b_0001.json"], Json (task_record "b" 1 (VStr "6-10")));
          (["tasks"; "queued"; "b_0002.json"], Json (task_record "b" 2 (VStr "8-10"))) ]
        [] example_source 0.

(** A database whose root directory has [queued] in its name. *)
Definition queued_root_rq : RenderQueue := {| db_root := "/mnt/queued_renders" |}.

(** Job [b] with a completed, a failed, a claimed and a queued task. *)
Definition requeue_world : world :=
  World [ (["jobs"; "b.json"], Json example_job);
          (["tasks"; "completed"; "b_0000.json"], Json (task_record "b" 0 (VStr "1-5")));
          (["tasks"; "failed"; "b_0001.json"], Json (task_record "b" 1 (VStr "6-10")));
          (["workers"; "w1"; "b_0002.json"], Json (task_record "b" 2 (VStr "11-15")));
          (["tasks"; "queued"; "b_0003.json"], Json (task_record "b" 3 (VStr "16-20"))) ]
        [] example_source 0.

(** Where [requeueJob] puts a task file. *)
Definition dest (p : path) : path := (db_queued ++ [FS.basename p])%list.

(** The file name mentions [queued]: [requeueJob] leaves the file alone. *)
Definition stays (self : RenderQueue) (p : path) : bool :=
  Py.contains "queued" (FS.filename (db_root self) p).

(** One round of the loop of [requeueJob], on the tree. *)
Definition requeue_step (self : RenderQueue) (t : tree) (p : path) : tree :=
  if negb (stays self p) then
    match FS.lookup p t with
    | None => t
    | Some c => FS.write (dest p) c (FS.remove p t)
    end
  else t.

(** The file of a task in the claim area of a worker. *)
Definition claimed_file (workerID jobID : string) (taskID : nat) : path :=
  ["workers"; workerID; task_file jobID taskID].

(** ** The vocabulary of the further properties *)



(** One round of the loop of [completeTask], [failTask] and
    [requeueTask], on the tree: the file goes to [area] unless its name
    mentions [word]. *)
Definition relocate_step (self : RenderQueue) (word : string) (area : path)
    (t : tree) (p : path) : tree :=
  if negb (Py.contains word (FS.filename (db_root self) p)) then
    match FS.lookup p t with
    | None => t
    | Some c => FS.write (area ++ [FS.basename p])%list c (FS.remove p t)
    end
  else t.




(** The record file of a worker, and the pattern that [getWorkers]
    scans. *)
Definition worker_file (workerID : string) : path :=
  ["workers"; workerID; "workerinfo.json"].


(** The record of a job [d] that was submitted without a priority. *)
Definition unprioritised_job : dict :=
  <["jobID" := VStr "d"]> (<["jobName" := VStr "test"]> ∅).

(** Job [b] with a queued task, and the job [d]. *)
Definition blocked_world : world :=
  World [ (["jobs"; "b.json"], Json example_job);
          (["jobs"; "d.json"], Json unprioritised_job);
          (["tasks"; "queued"; "b_0000.json"], Json (task_record "b" 0 (VStr "1-5"))) ]
        [] example_source 0.

(** [0 <= priority <= 100]. *)
Definition in_range (priority : Z) : bool := (0 <=? priority) && (priority <=? 100).




(** * Properties *)

(** ** Computations that only read *)


(** A loop body that never changes the world makes [map_m] a pure map. *)
Lemma map_m_reader {A B} (f : A -> M B) (g : A -> result B) (w : world)
    (l : list A) :
  (forall x, In x l -> f x w = (w, g x)) ->
  map_m f l w = (w, collect (map g l)).
Proof.
  induction l as [|x l IH]; intros H; simpl.
  - reflexivity.
  - unfold bind. rewrite (H x) by now left.
    destruct (g x) as [b|e]; [|reflexivity].
    rewrite IH by (intros y Hy; apply H; now right).
    destruct (collect (map g l)); reflexivity.
Qed.

Lemma read_json_parsed (p : path) (w : world) :
  read_json p w = (w, parsed (files w) p).
Proof.
  unfold read_json, parsed.
  destruct (FS.lookup p (files w)) as [[|d]|]; reflexivity.
Qed.

(** ** Substrings *)

Lemma prefix_spec (s t : string) :
  String.prefix s t = true <-> exists post, t = s +:+ post.
Proof.
  revert t. induction s as [|c s IH]; intros t.
  - split; [intros _; now exists t | now destruct t].
  - destruct t as [|c' t]; simpl.
    + split; [discriminate | intros [post H]; discriminate].
    + destruct (Ascii.ascii_dec c c') as [->|Hne].
      * rewrite IH. split; intros [post H]; exists post.
        -- simpl. now rewrite H.
        -- simpl in H. now injection H.
      * split; [discriminate|].
        intros [post H]. simpl in H. congruence.
Qed.

Lemma contains_spec (s t : string) :
  Py.contains s t = true <-> occurs_in s t.
Proof.
  induction t as [|c t IH].
  - change (Py.contains s "") with (String.prefix s "" || false).
    rewrite orb_false_r, prefix_spec. split.
    + intros [post H]. now exists EmptyString, post.
    + intros [pre [post H]]. destruct pre as [|a pre]; [|discriminate].
      now exists post.
  - change (Py.contains s (String c t))
      with (String.prefix s (String c t) || Py.contains s t).
    rewrite orb_true_iff, prefix_spec, IH. split.
    + intros [[post H]|[pre [post H]]].
      * now exists EmptyString, post.
      * exists (String c pre), post. simpl. now rewrite H.
    + intros [pre [post H]]. destruct pre as [|a pre].
      * left. now exists post.
      * right. simpl in H. injection H as _ H. now exists pre, post.
Qed.


(** ** The status label of a listed task *)




(** ** Files *)

Lemma path_eqb_true (p q : path) : FS.path_eqb p q = true <-> p = q.
Proof. unfold FS.path_eqb. apply bool_decide_eq_true. Qed.

Lemma path_eqb_refl (p : path) : FS.path_eqb p p = true.
Proof. now apply path_eqb_true. Qed.

Lemma path_eqb_ne (p q : path) : p <> q -> FS.path_eqb p q = false.
Proof. intros H. unfold FS.path_eqb. now apply bool_decide_eq_false. Qed.

Lemma lookup_write_eq (p : path) (c : content) (t : tree) :
  FS.lookup p (FS.write p c t) = Some c.
Proof.
  induction t as [|[q c'] t IH]; simpl.
  - now rewrite path_eqb_refl.
  - destruct (FS.path_eqb p q) eqn:E; simpl; rewrite E; [reflexivity | exact IH].
Qed.

Lemma lookup_write_ne (p q : path) (c : content) (t : tree) :
  p <> q -> FS.lookup p (FS.write q c t) = FS.lookup p t.
Proof.
  intros Hne. induction t as [|[r c'] t IH]; simpl.
  - now rewrite path_eqb_ne.
  - destruct (FS.path_eqb q r) eqn:E; simpl.
    + apply path_eqb_true in E. subst r. now rewrite path_eqb_ne.
    + now rewrite IH.
Qed.

Lemma lookup_remove_eq (p : path) (t : tree) :
  FS.lookup p (FS.remove p t) = None.
Proof.
  unfold FS.remove. induction t as [|[q c] t IH]; simpl; [reflexivity|].
  destruct (FS.path_eqb p q) eqn:E; simpl; [exact IH|].
  now rewrite E.
Qed.

Lemma lookup_remove_ne (p q : path) (t : tree) :
  p <> q -> FS.lookup p (FS.remove q t) = FS.lookup p t.
Proof.
  intros Hne. unfold FS.remove. induction t as [|[r c] t IH]; simpl; [reflexivity|].
  destruct (FS.path_eqb q r) eqn:E; simpl.
  - apply path_eqb_true in E. subst r. now rewrite path_eqb_ne.
  - now rewrite IH.
Qed.

Lemma lookup_None (p : path) (t : tree) :
  FS.lookup p t = None <-> ~ In p (map fst t).
Proof.
  induction t as [|[q c] t IH]; simpl.
  - tauto.
  - destruct (FS.path_eqb p q) eqn:E.
    + apply path_eqb_true in E. subst q. split; [discriminate | tauto].
    + rewrite IH. split.
      * intros H [->|H']; [now rewrite path_eqb_refl in E | tauto].
      * tauto.
Qed.

Lemma lookup_In (p : path) (t : tree) :
  In p (map fst t) -> exists c, FS.lookup p t = Some c.
Proof.
  intros H. destruct (FS.lookup p t) as [c|] eqn:E; [now exists c|].
  now apply lookup_None in E.
Qed.

Lemma glob_In (pts : list FS.pat) (t : tree) (p : path) :
  In p (FS.glob pts t) <-> In p (map fst t) /\ FS.match_path pts p = true.
Proof.
  unfold FS.glob. rewrite filter_In. tauto.
Qed.


(** ** Listing workers and jobs when a record is corrupt *)



(** [getJobs] has no such handler: the first matched file that does not
    parse ends the listing with its exception. *)
Lemma getJobs_eq (self : RenderQueue) (w : world) :
  getJobs self w =
  (w, collect (map (parsed (files w))
                   (FS.glob [FS.Lit "jobs"; FS.Affix "" ".json"] (files w)))).
Proof.
  unfold getJobs, glob, bind. apply map_m_reader.
  intros p _. apply read_json_parsed.
Qed.

(** C9. With one corrupt and one sound record in each namespace,
    [getWorkers] skips the corrupt worker with a printed warning and
    returns the sound one, but [getJobs] raises [JSONDecodeError] and
    returns no job at all: the handler of [getWorkers] is missing in
    [getJobs]. *)
Theorem getJobs_aborts_on_corrupt_record :
  snd (getWorkers example_rq corrupt_world) = Ok [example_worker] /\
  stdout (fst (getWorkers example_rq corrupt_world)) =
    ["Error reading worker: /srv/rq/workers/w1/workerinfo.json"] /\
  snd (getJobs example_rq corrupt_world) = Raise JSONDecodeError.
Proof. repeat split; vm_compute; reflexivity. Qed.

(** ** Setting the priority of a job *)

(** C7, as the specification has it, fails: a priority of 101 is out of
    range, yet [setPriority] raises nothing. It returns normally and the
    database is what it was. *)
Lemma setPriority_out_of_range_is_silent :
  setPriority example_rq "b" 101 priority_world = (priority_world, Ok tt).
Proof. vm_compute. reflexivity. Qed.

(** C7, amended. On a job whose record is there and parses, a priority
    outside of [0..100] is ignored without any error and without any
    change to the world; a priority within [0..100] does not fail when the
    record has a ['priority'] entry: the record then holds the new
    priority, and nothing at all is written when it held it before. *)
Theorem setPriority_range (self : RenderQueue) (jobID : string) (priority : Z)
    (w : world) (job : dict) :
  parsed (files w) (job_file jobID) = Ok job ->
  (~ (0 <= priority <= 100) ->
     setPriority self jobID priority w = (w, Ok tt)) /\
  (0 <= priority <= 100 -> is_Some (job !! "priority") ->
     exists w',
       setPriority self jobID priority w = (w', Ok tt) /\
       parsed (files w') (job_file jobID) = Ok (<["priority" := VInt priority]> job) /\
       (job !! "priority" = Some (VInt priority) -> w' = w)).
Proof.
  intros Hjob. unfold setPriority, bind.
  change (db_jobs ++ [jobID +:+ ".json"])%list with (job_file jobID).
  rewrite read_json_parsed, Hjob. split.
  - intros Hout.
    assert ((0 <=? priority) && (priority <=? 100) = false) as ->; [|reflexivity].
    apply andb_false_iff. rewrite Z.leb_gt, Z.leb_gt. lia.
  - intros Hin [old Hold].
    assert ((0 <=? priority) && (priority <=? 100) = true) as ->.
    { apply andb_true_iff. rewrite !Z.leb_le. lia. }
    unfold lift, getitem. rewrite Hold.
    destruct (bool_decide (old <> VInt priority)) eqn:B.
    + apply bool_decide_eq_true in B.
      eexists. split; [reflexivity|]. split.
      * cbn [files set_files]. unfold parsed. now rewrite lookup_write_eq.
      * intros [= ->]. contradiction.
    + apply bool_decide_eq_false in B.
      assert (old = VInt priority) as -> by (destruct (decide (old = VInt priority)); tauto).
      exists w. split; [reflexivity|]. split; [|reflexivity].
      now rewrite insert_id.
Qed.

(** [setPriority_range] at work: 75 replaces 50. *)
Lemma setPriority_range_witness :
  exists w',
    setPriority example_rq "b" 75 priority_world = (w', Ok tt) /\
    parsed (files w') (job_file "b") = Ok (<["priority" := VInt 75]> example_job) /\
    (example_job !! "priority" = Some (VInt 75) -> w' = priority_world).
Proof.
  apply (proj2 (setPriority_range example_rq "b" 75 priority_world example_job
                  eq_refl)).
  - lia.
  - exists (VInt 50). vm_compute. reflexivity.
Defined.

(** ** File names of tasks *)

Lemma append_assoc (a b c : string) : (a +:+ b) +:+ c = a +:+ b +:+ c.
Proof. induction a as [|x a IH]; simpl; [reflexivity | now rewrite IH]. Qed.

Lemma append_length (a b : string) :
  String.length (a +:+ b) = (String.length a + String.length b)%nat.
Proof. induction a as [|x a IH]; simpl; [reflexivity | now rewrite IH]. Qed.

Lemma append_cancel_r (a b c : string) : a +:+ c = b +:+ c -> a = b.
Proof.
  revert b. induction a as [|x a IH]; intros [|y b] H.
  - reflexivity.
  - apply (f_equal String.length) in H. simpl in H.
    rewrite append_length in H. lia.
  - apply (f_equal String.length) in H. simpl in H.
    rewrite append_length in H. lia.
  - simpl in H. injection H as -> H. f_equal. now apply IH.
Qed.





Lemma read_nat_zeros (k : nat) (s : string) :
  read_nat (Py.zeros k +:+ s) = read_nat s.
Proof.
  unfold read_nat. induction k as [|k IH]; [reflexivity|].
  change (Py.zeros (S k) +:+ s) with (String "0" (Py.zeros k +:+ s)).
  change (NilEmpty.uint_of_string (String "0" (Py.zeros k +:+ s)))
    with (uint_of_char "0" (NilEmpty.uint_of_string (Py.zeros k +:+ s))).
  destruct (NilEmpty.uint_of_string (Py.zeros k +:+ s)) as [d|];
    destruct (NilEmpty.uint_of_string s) as [d'|]; simpl in *; try congruence.
  change (Nat.of_uint (D0 d)) with (Nat.of_uint d). exact IH.
Qed.

Lemma read_nat_str_nat (n : nat) : read_nat (Py.str_nat n) = Some n.
Proof.
  unfold read_nat, Py.str_nat, NilZero.string_of_uint.
  destruct (Nat.to_uint n) eqn:E;
    try (rewrite <- E, NilEmpty.usu; simpl; now rewrite DecimalNat.Unsigned.of_to).
  apply (f_equal Nat.of_uint) in E. rewrite DecimalNat.Unsigned.of_to in E.
  subst n. reflexivity.
Qed.

(** A decimal numeral carries no sign. *)
Lemma str_nat_unsigned (n : nat) :
  Py.zfill 4 (Py.str_nat n) =
  Py.zeros (4 - String.length (Py.str_nat n)) +:+ Py.str_nat n.
Proof.
  unfold Py.str_nat, NilZero.string_of_uint.
  destruct (Nat.to_uint n); reflexivity.
Qed.

Lemma zfill_str_nat_inj (i j : nat) :
  Py.zfill 4 (Py.str_nat i) = Py.zfill 4 (Py.str_nat j) -> i = j.
Proof.
  intros H. apply (f_equal read_nat) in H.
  rewrite !str_nat_unsigned, !read_nat_zeros, !read_nat_str_nat in H.
  congruence.
Qed.

Lemma task_file_inj (jobID : string) (i j : nat) :
  task_file jobID i = task_file jobID j -> i = j.
Proof.
  unfold task_file. intros H.
  apply String.app_inj in H. apply String.app_inj in H.
  apply append_cancel_r in H. now apply zfill_str_nat_inj.
Qed.



(** ** Creating a job *)

Lemma set_files_set_files (t1 t2 : tree) (w : world) :
  set_files t2 (set_files t1 w) = set_files t2 w.
Proof. reflexivity. Qed.






(** ** The tasks of a new job *)





Lemma queued_file_inj (jobID : string) (i j : nat) :
  queued_file jobID i = queued_file jobID j -> i = j.
Proof. unfold queued_file. intros [= H]. now apply task_file_inj in H. Qed.













(** ** Sorting by an integer key *)

Section sort_facts.
Context {A : Type}.



(** [first] orders the keys by a measure [m]. *)
Variable m : value -> Z.



End sort_facts.






(** ** Dequeuing *)





Lemma dequeueJob_eq (self : RenderQueue) (w : world) (jobs : list dict) :
  snd (getJobs self w) = Ok jobs ->
  dequeueJob self w =
  match Sort.sorted (fun j : dict => getitem j "priority") true jobs with
  | Ok by_priority => dequeueJob_loop self by_priority w
  | Raise e => (w, Raise e)
  end.
Proof.
  intros Hjobs. unfold dequeueJob, bind at 1.
  rewrite getJobs_eq in *. cbn [snd] in Hjobs. rewrite Hjobs.
  unfold bind, lift. reflexivity.
Qed.



Example dequeueJob_scheduling_world :
  snd (dequeueJob example_rq scheduling_world) = Ok (Some (task_record "b" 0 (VStr "1-5"))).
Proof. vm_compute. reflexivity. Qed.


(** ** Decimal numerals and [split] *)

Lemma has_cons (c x : ascii) (s : string) : has c (String x s) <-> x = c \/ has c s.
Proof. reflexivity. Qed.

Lemma has_append (c : ascii) (a b : string) : has c (a +:+ b) <-> has c a \/ has c b.
Proof.
  induction a as [|x a IH].
  - simpl. unfold has at 2. simpl. tauto.
  - change (String x a +:+ b) with (String x (a +:+ b)).
    rewrite !has_cons, IH. tauto.
Qed.

Lemma digits_cons (c : ascii) (s : string) :
  digits (String c s) <-> is_digit c = true /\ digits s.
Proof. unfold digits. simpl. apply Forall_cons_iff. Qed.

Lemma digits_no (c : ascii) (s : string) : is_digit c = false -> digits s -> ~ has c s.
Proof.
  intros Hc Hs Hin. unfold digits, has in *.
  rewrite List.Forall_forall in Hs. apply Hs in Hin. congruence.
Qed.

Lemma string_of_uint_digits (d : uint) : digits (NilEmpty.string_of_uint d).
Proof.
  induction d; simpl; try (apply digits_cons; split; [reflexivity | assumption]).
  constructor.
Qed.

Lemma split_nonempty (sep : ascii) (s : string) : Py.split sep s <> [].
Proof.
  destruct s as [|c s]; simpl; [discriminate|].
  destruct (Ascii.eqb c sep); [discriminate|].
  destruct (Py.split sep s); discriminate.
Qed.

(** A string without the separator is one piece. *)
Lemma split_none (sep : ascii) (s : string) : ~ has sep s -> Py.split sep s = [s].
Proof.
  induction s as [|c s IH]; intros H; simpl; [reflexivity|].
  rewrite has_cons in H.
  destruct (Ascii.eqb_spec c sep) as [->|Hne]; [tauto|].
  rewrite IH by tauto. reflexivity.
Qed.

(** The first separator ends the first piece. *)
Lemma split_append (sep : ascii) (a b : string) :
  ~ has sep a ->
  Py.split sep (a +:+ String sep b) = a :: Py.split sep b.
Proof.
  induction a as [|c a IH]; intros H.
  - simpl. now rewrite Ascii.eqb_refl.
  - rewrite has_cons in H.
    change (String c a +:+ String sep b) with (String c (a +:+ String sep b)).
    cbn [Py.split]. destruct (Ascii.eqb_spec c sep) as [->|Hne]; [tauto|].
    rewrite IH by tauto. reflexivity.
Qed.

(** Every character other than the separator ends up in some piece. *)
Lemma split_has (sep c : ascii) (s : string) :
  c <> sep -> has c s -> Exists (has c) (Py.split sep s).
Proof.
  intros Hc. induction s as [|x s IH]; intros H.
  - destruct H.
  - rewrite has_cons in H. cbn [Py.split].
    destruct (Ascii.eqb_spec x sep) as [->|Hne].
    + destruct H as [->|H]; [congruence|]. right. now apply IH.
    + destruct (Py.split sep s) as [|p ps] eqn:E.
      { now apply split_nonempty in E. }
      destruct H as [->|H].
      * left. apply has_cons. now left.
      * apply IH in H. apply Exists_cons in H as [H|H].
        -- left. apply has_cons. now right.
        -- now right.
Qed.

Lemma digit_not_space (c : ascii) : is_digit c = true -> Py.is_space c = false.
Proof.
  unfold is_digit, Py.is_space. cbv zeta. generalize (nat_of_ascii c). intros n H.
  apply andb_true_iff in H as [H1 H2]. apply Nat.leb_le in H1, H2.
  apply orb_false_iff. split.
  - apply andb_false_iff. right. apply Nat.leb_gt. lia.
  - apply Nat.eqb_neq. lia.
Qed.

Lemma lstrip_has (c : ascii) (s : string) :
  Py.is_space c = false -> has c s -> has c (Py.lstrip s).
Proof.
  intros Hc. induction s as [|x s IH]; intros H; [destruct H|].
  cbn [Py.lstrip]. destruct (Py.is_space x) eqn:E; [|exact H].
  apply has_cons in H as [->|H]; [congruence | now apply IH].
Qed.

Lemma rstrip_has (c : ascii) (s : string) :
  Py.is_space c = false -> has c s -> has c (Py.rstrip s).
Proof.
  intros Hc. induction s as [|x s IH]; intros H; [destruct H|].
  cbn [Py.rstrip]. apply has_cons in H as [->|H].
  - destruct (Py.rstrip s); [rewrite Hc|]; apply has_cons; now left.
  - apply IH in H. destruct (Py.rstrip s) as [|y k]; [destruct H|].
    apply has_cons. now right.
Qed.

Lemma strip_has (c : ascii) (s : string) :
  Py.is_space c = false -> has c s -> has c (Py.strip s).
Proof. intros Hc H. unfold Py.strip. now apply rstrip_has, lstrip_has. Qed.

Lemma rstrip_digits (s : string) : digits s -> Py.rstrip s = s.
Proof.
  induction s as [|x s IH]; intros H; [reflexivity|].
  apply digits_cons in H as [Hx Hs]. cbn [Py.rstrip]. rewrite IH by assumption.
  destruct s; [|reflexivity]. now rewrite digit_not_space.
Qed.

Lemma strip_digits (s : string) : digits s -> Py.strip s = s.
Proof.
  intros H. unfold Py.strip.
  assert (Py.lstrip s = s) as ->; [|now apply rstrip_digits].
  destruct s as [|x s]; [reflexivity|].
  apply digits_cons in H as [Hx _]. cbn [Py.lstrip]. now rewrite digit_not_space.
Qed.

(** A numeral with a character that no digit is has no reading. *)
Lemma uint_of_string_has (c : ascii) (s : string) :
  (forall o, uint_of_char c o = None) -> has c s ->
  NilEmpty.uint_of_string s = None.
Proof.
  intros Hc. induction s as [|x s IH]; intros H; [destruct H|].
  cbn [NilEmpty.uint_of_string]. apply has_cons in H as [->|H].
  - apply Hc.
  - now rewrite IH.
Qed.

Lemma NilZero_uint_of_string_has (c : ascii) (s : string) :
  (forall o, uint_of_char c o = None) -> has c s ->
  NilZero.uint_of_string s = None.
Proof.
  intros Hc H. destruct s as [|x s]; [destruct H|].
  now apply (uint_of_string_has c).
Qed.

(** [int] rejects a text with a comma in it. *)
Lemma int_has_comma (s : string) : has "," s -> Py.int s = None.
Proof.
  intros H. apply strip_has in H; [|reflexivity].
  unfold Py.int. destruct (Py.strip s) as [|c r]; [reflexivity|].
  assert (Hcomma : forall o, uint_of_char "," o = None) by (now intros [d|]).
  destruct (Ascii.eqb_spec c "-") as [->|Hminus].
  - apply has_cons in H as [H|H]; [discriminate|].
    now rewrite (NilZero_uint_of_string_has "," r).
  - destruct (Ascii.eqb_spec c "+") as [->|Hplus].
    + apply has_cons in H as [H|H]; [discriminate|].
      now rewrite (NilZero_uint_of_string_has "," r).
    + now rewrite (NilZero_uint_of_string_has "," (String c r)).
Qed.

Lemma int_string_of_uint (d : uint) :
  d <> Nil -> Py.int (NilEmpty.string_of_uint d) = Some (Z.of_uint d).
Proof.
  intros Hd. unfold Py.int.
  rewrite strip_digits by apply string_of_uint_digits.
  pose proof (string_of_uint_digits d) as Hdig.
  pose proof (NilEmpty.usu d) as Husu.
  destruct (NilEmpty.string_of_uint d) as [|c r] eqn:E.
  - destruct d; discriminate || congruence.
  - apply digits_cons in Hdig as [Hc _].
    destruct (Ascii.eqb_spec c "-") as [->|_]; [discriminate|].
    destruct (Ascii.eqb_spec c "+") as [->|_]; [discriminate|].
    unfold NilZero.uint_of_string. now rewrite Husu.
Qed.

Lemma str_Z_nonneg (a : Z) :
  0 <= a ->
  exists d, d <> Nil /\ Py.str_Z a = NilEmpty.string_of_uint d /\ Z.of_uint d = a.
Proof.
  intros Ha. destruct a as [|p|p]; [| |lia].
  - exists (D0 Nil). repeat split. discriminate.
  - exists (Pos.to_uint p). split; [apply DecimalPos.Unsigned.to_uint_nonnil|].
    split.
    + unfold Py.str_Z. cbn [Z.to_int NilZero.string_of_int].
      unfold NilZero.string_of_uint.
      pose proof (DecimalPos.Unsigned.to_uint_nonnil p).
      destruct (Pos.to_uint p); congruence.
    + unfold Z.of_uint. now rewrite DecimalPos.Unsigned.of_to.
Qed.

Lemma int_str_Z (a : Z) : 0 <= a -> Py.int (Py.str_Z a) = Some a.
Proof.
  intros Ha. destruct (str_Z_nonneg a Ha) as (d & Hd & -> & <-).
  now apply int_string_of_uint.
Qed.

Lemma str_Z_digits (a : Z) : 0 <= a -> digits (Py.str_Z a).
Proof.
  intros Ha. destruct (str_Z_nonneg a Ha) as (d & Hd & -> & _).
  apply string_of_uint_digits.
Qed.

Lemma str_Z_negative (a : Z) : a < 0 -> exists r, Py.str_Z a = String "-" r.
Proof.
  intros Ha. destruct a as [|p|p]; [lia|lia|].
  unfold Py.str_Z. cbn [Z.to_int NilZero.string_of_int]. eauto.
Qed.

(** ** Frame lists and their compact notation *)

Lemma insert_frame_In (x y : Z) (l : list Z) :
  In x (sequence.insert_frame y l) <-> x = y \/ In x l.
Proof.
  induction l as [|z l IH]; simpl; [intuition congruence|].
  destruct (Z.ltb_spec y z); simpl; [intuition congruence|].
  destruct (Z.eqb_spec y z); simpl; [subst; intuition congruence|].
  rewrite IH. intuition congruence.
Qed.

Lemma sort_frames_In (x : Z) (l : list Z) :
  In x (sequence.sort_frames l) <-> In x l.
Proof.
  unfold sequence.sort_frames. induction l as [|y l IH]; simpl; [tauto|].
  rewrite insert_frame_In, IH. intuition congruence.
Qed.

Lemma insert_frame_sorted (y : Z) (l : list Z) :
  StronglySorted Z.lt l -> StronglySorted Z.lt (sequence.insert_frame y l).
Proof.
  induction l as [|z l IH]; intros Hs; simpl.
  - constructor; constructor.
  - apply StronglySorted_inv in Hs as Hinv. destruct Hinv as [Hl Hz].
    destruct (Z.ltb_spec y z).
    + constructor; [exact Hs|]. constructor; [assumption|].
      rewrite List.Forall_forall in *. intros u Hu. specialize (Hz u Hu). lia.
    + destruct (Z.eqb_spec y z); [exact Hs|].
      constructor; [now apply IH|].
      rewrite List.Forall_forall in *. intros u Hu.
      apply insert_frame_In in Hu as [->|Hu]; [lia | now apply Hz].
Qed.

Lemma sort_frames_sorted (l : list Z) : StronglySorted Z.lt (sequence.sort_frames l).
Proof.
  unfold sequence.sort_frames. induction l as [|y l IH]; simpl; [constructor|].
  now apply insert_frame_sorted.
Qed.

Lemma runs_from_nonempty (a b : Z) (l : list Z) : sequence.runs_from a b l <> [].
Proof.
  revert a b. induction l as [|x l IH]; intros a b; simpl; [discriminate|].
  destruct (x =? b + 1); [apply IH | discriminate].
Qed.

(** A single run is a range without gaps. *)
Lemma runs_from_single (a b a' b' : Z) (l : list Z) :
  sequence.runs_from a b l = [(a', b')] ->
  a' = a /\ b <= b' /\ forall x, In x l <-> b < x <= b'.
Proof.
  revert b. induction l as [|y l IH]; intros b; simpl.
  - intros [= <- <-]. split; [reflexivity|]. split; [lia|].
    intros x. split; [tauto | lia].
  - destruct (Z.eqb_spec y (b + 1)) as [->|Hne].
    + intros H. apply IH in H as (-> & Hle & Hin).
      split; [reflexivity|]. split; [lia|]. intros x. split.
      * intros [<-|Hx]; [lia|]. apply Hin in Hx. lia.
      * intros Hx. destruct (Z.eq_dec x (b + 1)) as [->|Hx']; [now left|].
        right. apply Hin. lia.
    + intros [= _ _ H]. now apply runs_from_nonempty in H.
Qed.

Lemma runs_single (a b : Z) (l : list Z) :
  sequence.runs l = [(a, b)] -> a <= b /\ forall x, In x l <-> a <= x <= b.
Proof.
  destruct l as [|y l]; simpl; [discriminate|].
  intros H. apply runs_from_single in H as (-> & Hle & Hin).
  split; [exact Hle|]. intros x. rewrite Hin. lia.
Qed.

(** An ascending list that holds exactly a range is one run. *)
Lemma runs_from_range (a b0 b : Z) (l : list Z) :
  StronglySorted Z.lt l -> b0 <= b -> (forall x, In x l <-> b0 < x <= b) ->
  sequence.runs_from a b0 l = [(a, b)].
Proof.
  revert b0. induction l as [|y l IH]; intros b0 Hs Hle Hin; simpl.
  - destruct (Z.eq_dec b0 b) as [->|Hne]; [reflexivity|].
    exfalso. apply (Hin b). lia.
  - apply StronglySorted_inv in Hs as [Hl Hy]. rewrite List.Forall_forall in Hy.
    assert (Hyb : b0 < y <= b) by (apply Hin; now left).
    assert (y = b0 + 1) as ->.
    { destruct (proj2 (Hin (b0 + 1)) ltac:(lia)) as [->|H]; [reflexivity|].
      apply Hy in H. lia. }
    rewrite Z.eqb_refl. apply IH; [exact Hl | lia |].
    intros x. split.
    + intros Hx. specialize (Hy x Hx). pose proof (proj1 (Hin x) (or_intror Hx)). lia.
    + intros Hx. destruct (proj2 (Hin x) ltac:(lia)) as [<-|H]; [lia | exact H].
Qed.

Lemma runs_range (a b : Z) (l : list Z) :
  StronglySorted Z.lt l -> a <= b -> (forall x, In x l <-> a <= x <= b) ->
  sequence.runs l = [(a, b)].
Proof.
  intros Hs Hle Hin. destruct l as [|y l].
  - exfalso. apply (Hin a). lia.
  - apply StronglySorted_inv in Hs as [Hl Hy]. rewrite List.Forall_forall in Hy.
    assert (Hyb : a <= y <= b) by (apply Hin; now left).
    assert (y = a) as ->.
    { destruct (proj2 (Hin a) ltac:(lia)) as [->|H]; [reflexivity|].
      apply Hy in H. lia. }
    simpl. apply runs_from_range; [exact Hl | lia |].
    intros x. split.
    + intros Hx. specialize (Hy x Hx). pose proof (proj1 (Hin x) (or_intror Hx)). lia.
    + intros Hx. destruct (proj2 (Hin x) ltac:(lia)) as [<-|H]; [lia | exact H].
Qed.

(** ** The sanity check of [combineTasks] *)

Lemma new_frame_range_eq (frames : list Z) :
  new_frame_range frames = sanity_check (sequence.numRange frames).
Proof. reflexivity. Qed.

Lemma check_leading_minus (r : string) : fails (sanity_check (String "-" r)).
Proof.
  unfold sanity_check. cbn [Py.split]. rewrite Ascii.eqb_refl.
  destruct (Py.split "-" r) as [|q [|q' rest]]; try (now eexists).
Qed.

Lemma check_comma (s : string) : has "," s -> fails (sanity_check s).
Proof.
  intros H. apply (split_has "-") in H; [|discriminate].
  unfold sanity_check.
  destruct (Py.split "-" s) as [|p [|q [|q' rest]]]; try (now eexists).
  apply Exists_cons in H as [H|H].
  - rewrite (int_has_comma p H). now eexists.
  - apply Exists_cons in H as [H|H]; [|inversion H].
    rewrite (int_has_comma q H). destruct (Py.int p); now eexists.
Qed.

Lemma check_digits (s : string) : digits s -> fails (sanity_check s).
Proof.
  intros H. unfold sanity_check.
  rewrite split_none by (now apply digits_no). now eexists.
Qed.

Lemma check_range (a b : Z) :
  0 <= a -> 0 <= b ->
  sanity_check (Py.str_Z a +:+ "-" +:+ Py.str_Z b) =
  if a <? b then Ok (Py.str_Z a +:+ "-" +:+ Py.str_Z b) else Raise AssertionError.
Proof.
  intros Ha Hb. unfold sanity_check.
  change (Py.str_Z a +:+ "-" +:+ Py.str_Z b)
    with (Py.str_Z a +:+ String "-" (Py.str_Z b)).
  rewrite split_append by (apply digits_no; [reflexivity | now apply str_Z_digits]).
  rewrite split_none by (apply digits_no; [reflexivity | now apply str_Z_digits]).
  now rewrite !int_str_Z.
Qed.

Lemma show_run_check (a b : Z) :
  a <= b ->
  (0 <= a < b /\
   sanity_check (sequence.show_run (a, b)) = Ok (Py.str_Z a +:+ "-" +:+ Py.str_Z b))
  \/ fails (sanity_check (sequence.show_run (a, b))).
Proof.
  intros Hle. unfold sequence.show_run. cbn [fst snd].
  destruct (Z_lt_le_dec a 0) as [Hneg|Hpos].
  - right. destruct (str_Z_negative a Hneg) as (r & Hr). rewrite Hr.
    destruct (a =? b); apply check_leading_minus.
  - destruct (Z.eqb_spec a b) as [->|Hne].
    + right. apply check_digits. now apply str_Z_digits.
    + left. split; [lia|]. rewrite check_range by lia.
      destruct (Z.ltb_spec a b); [reflexivity | lia].
Qed.

Lemma join_two_has_comma (x y : string) (rest : list string) :
  has "," (Py.join ", " (x :: y :: rest)).
Proof.
  cbn [Py.join]. apply has_append. right. apply has_append. left.
  apply has_cons. now left.
Qed.

(** The check succeeds only on a union without gaps that starts at a
    frame number that is not negative and has at least two frames; the
    new range then runs from the lowest to the highest frame. *)
Lemma new_frame_range_Ok (frames : list Z) (r : string) :
  new_frame_range frames = Ok r ->
  exists a b, 0 <= a < b /\ (forall x, In x frames <-> a <= x <= b) /\
              r = Py.str_Z a +:+ "-" +:+ Py.str_Z b.
Proof.
  rewrite new_frame_range_eq. unfold sequence.numRange.
  destruct (sequence.runs (sequence.sort_frames frames)) as [|[a b] [|r2 rest]] eqn:E.
  - discriminate.
  - cbn [map Py.join]. intros H.
    apply runs_single in E as [Hle Hin].
    destruct (show_run_check a b Hle) as [[Hab Hok]|[e He]]; [|congruence].
    rewrite Hok in H. injection H as <-. exists a, b.
    split; [exact Hab|]. split; [|reflexivity].
    intros x. now rewrite <- Hin, sort_frames_In.
  - intros H. destruct (check_comma _ (join_two_has_comma
      (sequence.show_run (a, b)) (sequence.show_run r2) (map sequence.show_run rest)))
      as [e He].
    cbn [map] in H. congruence.
Qed.

(** And on every such union it does succeed. *)
Lemma new_frame_range_contiguous (frames : list Z) (a b : Z) :
  0 <= a < b -> (forall x, In x frames <-> a <= x <= b) ->
  new_frame_range frames = Ok (Py.str_Z a +:+ "-" +:+ Py.str_Z b).
Proof.
  intros Hab Hin. rewrite new_frame_range_eq. unfold sequence.numRange.
  rewrite (runs_range a b).
  - cbn [map Py.join]. unfold sequence.show_run. cbn [fst snd].
    destruct (Z.eqb_spec a b); [lia|]. rewrite check_range by lia.
    destruct (Z.ltb_spec a b); [reflexivity | lia].
  - apply sort_frames_sorted.
  - lia.
  - intros x. now rewrite sort_frames_In.
Qed.

Lemma new_frame_range_gaps (frames : list Z) :
  ~ contiguous frames -> fails (new_frame_range frames).
Proof.
  intros Hgap. destruct (new_frame_range frames) as [r|e] eqn:E; [|now exists e].
  exfalso. apply Hgap. apply new_frame_range_Ok in E as (a & b & Hab & Hin & _).
  exists a, b. split; [lia | exact Hin].
Qed.

(** ** Combining tasks *)

Lemma combine_scan_spec (jobID : string) (first : nat) (ids : list nat) :
  forall (st : scan) (w : world),
    exists r, combine_scan jobID first ids st w = (w, r) /\
    match r with
    | Ok st' =>
        exists framess,
          Forall2 (fun id fr => task_frames (files w) jobID id = Ok fr) ids framess /\
          frames st' = (frames st ++ concat framess)%list /\
          tasks_to_delete st' =
            (tasks_to_delete st ++ map (queued_file jobID) (other_than first ids))%list /\
          (In first ids ->
             exists d, parsed (files w) (queued_file jobID first) = Ok d /\
                       newtaskdata st' = Some d) /\
          (~ In first ids -> newtaskdata st' = newtaskdata st)
    | Raise e =>
        ~ Forall (fun id => exists fr, task_frames (files w) jobID id = Ok fr) ids
    end.
Proof.
  induction ids as [|id ids IH]; intros st w.
  - exists (Ok st). split; [reflexivity|]. exists [].
    split; [constructor|]. cbn [concat other_than List.filter map].
    rewrite !app_nil_r. split; [reflexivity|]. split; [reflexivity|].
    split; [intros [] | reflexivity].
  - cbn [combine_scan]. unfold bind at 1.
    change (db_queued ++ [task_file jobID id])%list with (queued_file jobID id).
    rewrite read_json_parsed.
    destruct (parsed (files w) (queued_file jobID id)) as [d|e] eqn:Ed.
    2:{ exists (Raise e). split; [reflexivity|]. intros H.
        apply Forall_inv in H as [fr H].
        unfold task_frames in H. rewrite Ed in H. discriminate. }
    unfold bind at 1, lift at 1.
    destruct (getitem d "frames") as [v|e] eqn:Ev.
    2:{ exists (Raise e). split; [reflexivity|]. intros H.
        apply Forall_inv in H as [fr H].
        unfold task_frames in H. rewrite Ed, Ev in H. discriminate. }
    unfold bind at 1, lift at 1.
    destruct (frames_of v) as [numbers|e] eqn:En.
    2:{ exists (Raise e). split; [reflexivity|]. intros H.
        apply Forall_inv in H as [fr H].
        unfold task_frames in H. rewrite Ed, Ev, En in H. discriminate. }
    assert (Hfr : task_frames (files w) jobID id = Ok numbers).
    { unfold task_frames. now rewrite Ed, Ev. }
    match goal with |- context [combine_scan jobID first ids ?s w] =>
      destruct (IH s w) as (r & Hrun & Hr); set (st1 := s) in *
    end.
    exists r. split; [exact Hrun|].
    destruct r as [st'|e].
    + destruct Hr as (framess & Hall & Hframes & Hdel & Hin & Hnotin).
      exists (numbers :: framess). split; [now constructor|].
      unfold other_than in *. cbn [List.filter concat].
      destruct (Nat.eqb_spec id first) as [->|Hne]; subst st1;
        cbn [frames tasks_to_delete newtaskdata negb map] in *.
      * split; [now rewrite Hframes, <- app_assoc|]. split; [exact Hdel|].
        split; [|intros H; exfalso; apply H; now left].
        intros _. destruct (in_dec Nat.eq_dec first ids) as [Hi|Hi].
        -- now apply Hin.
        -- exists d. split; [exact Ed | now apply Hnotin].
      * split; [now rewrite Hframes, <- app_assoc|].
        split; [now rewrite Hdel, <- app_assoc|]. split.
        -- intros [H|H]; [congruence | now apply Hin].
        -- intros H. apply Hnotin. intros Hi. apply H. now right.
    + intros H. apply Hr. now apply Forall_inv_tail in H.
Qed.

Lemma remove_all_eq (ps : list path) :
  forall w, for_each ps oswrapper.recurseRemove w =
            (set_files (fold_left (fun t p => FS.remove p t) ps (files w)) w, Ok tt).
Proof.
  induction ps as [|p ps IH]; intros w.
  - destruct w; reflexivity.
  - cbn [for_each]. unfold bind at 1, oswrapper.recurseRemove at 1.
    rewrite IH. reflexivity.
Qed.

Lemma lookup_remove_None (p q : path) (t : tree) :
  FS.lookup p t = None -> FS.lookup p (FS.remove q t) = None.
Proof.
  intros H. destruct (decide (p = q)) as [->|Hne].
  - apply lookup_remove_eq.
  - now rewrite lookup_remove_ne.
Qed.

Lemma lookup_remove_all (p : path) (ps : list path) :
  forall t,
    FS.lookup p (fold_left (fun t q => FS.remove q t) ps t) =
    if bool_decide (p ∈ ps) then None else FS.lookup p t.
Proof.
  induction ps as [|q ps IH]; intros t; cbn [fold_left].
  - rewrite bool_decide_eq_false_2; [reflexivity | apply not_elem_of_nil].
  - rewrite IH. destruct (decide (p = q)) as [->|Hne].
    + rewrite (bool_decide_eq_true_2 (q ∈ q :: ps)) by apply list_elem_of_here.
      rewrite lookup_remove_eq. now destruct (bool_decide (q ∈ ps)).
    + rewrite lookup_remove_ne by assumption.
      destruct (bool_decide (p ∈ ps)) eqn:B.
      * apply bool_decide_eq_true in B.
        now rewrite bool_decide_eq_true_2 by (now apply list_elem_of_further).
      * apply bool_decide_eq_false in B.
        rewrite bool_decide_eq_false_2; [reflexivity|].
        intros H. apply elem_of_cons in H as [H|H]; congruence.
Qed.

(** [combineTasks], step by step. *)
Lemma combineTasks_eq (self : RenderQueue) (jobID : string) (taskIDs : list nat)
    (w : world) :
  combineTasks self jobID taskIDs w =
  let w0 := logged [jobID +:+ " " +:+ repr_ids taskIDs] w in
  match taskIDs with
  | first :: _ :: _ =>
      match combine_scan jobID first taskIDs (Scan [] [] None) w0 with
      | (w1, Raise e) => (w1, Raise e)
      | (w1, Ok st) =>
          match new_frame_range (frames st) with
          | Raise _ => (logged [not_contiguous] w1, Ok None)
          | Ok newframerange =>
              let w2 := logged ["New frame range: " +:+ newframerange] w1 in
              let t3 := fold_left (fun t p => FS.remove p t) (tasks_to_delete st) (files w2) in
              match newtaskdata st with
              | None => (set_files t3 w2, Raise UnboundLocalError)
              | Some taskdata =>
                  (set_files (FS.write (queued_file jobID first)
                                (Json (<["frames" := VStr newframerange]> taskdata)) t3) w2,
                   Ok (Some first))
              end
          end
      end
  | _ => (logged [need_two] w0, Ok None)
  end.
Proof.
  unfold combineTasks. unfold bind at 1, print at 1.
  fold (logged [jobID +:+ " " +:+ repr_ids taskIDs] w). cbv zeta.
  destruct taskIDs as [|first [|second rest]]; try reflexivity.
  unfold bind at 1.
  destruct (combine_scan jobID first (first :: second :: rest) (Scan [] [] None)
              (logged [jobID +:+ " " +:+ repr_ids (first :: second :: rest)] w))
    as [w1 [st|e]]; [|reflexivity].
  destruct (new_frame_range (frames st)) as [nfr|e]; [|reflexivity].
  unfold bind at 1, print at 1. unfold bind at 1. rewrite remove_all_eq.
  destruct (newtaskdata st); reflexivity.
Qed.

(** The ways in which a call of [combineTasks] can end. *)
Lemma combineTasks_cases (self : RenderQueue) (jobID : string) (taskIDs : list nat)
    (w : world) :
  let w0 := logged [jobID +:+ " " +:+ repr_ids taskIDs] w in
  ((length taskIDs < 2)%nat /\
   combineTasks self jobID taskIDs w = (logged [need_two] w0, Ok None))
  \/
  exists first rest,
    taskIDs = first :: rest /\ rest <> [] /\
    ((exists e, combineTasks self jobID taskIDs w = (w0, Raise e) /\
        ~ Forall (fun id => exists fr, task_frames (files w) jobID id = Ok fr) taskIDs)
     \/
     exists framess,
       Forall2 (fun id fr => task_frames (files w) jobID id = Ok fr) taskIDs framess /\
       ((fails (new_frame_range (concat framess)) /\
         combineTasks self jobID taskIDs w = (logged [not_contiguous] w0, Ok None))
        \/
        exists newframerange taskdata,
          new_frame_range (concat framess) = Ok newframerange /\
          parsed (files w) (queued_file jobID first) = Ok taskdata /\
          combineTasks self jobID taskIDs w =
          (set_files (combined_tree jobID first taskIDs newframerange taskdata (files w))
                     (logged ["New frame range: " +:+ newframerange] w0),
           Ok (Some first)))).
Proof.
  intros w0. rewrite combineTasks_eq. cbv zeta. fold w0.
  destruct taskIDs as [|first [|second rest]].
  - left. split; [simpl; lia | reflexivity].
  - left. split; [simpl; lia | reflexivity].
  - right. exists first, (second :: rest). split; [reflexivity|]. split; [discriminate|].
    set (taskIDs := first :: second :: rest).
    destruct (combine_scan_spec jobID first taskIDs (Scan [] [] None) w0)
      as (r & Hrun & Hr).
    rewrite Hrun.
    destruct r as [st|e].
    2:{ left. exists e. split; [reflexivity | exact Hr]. }
    right. destruct Hr as (framess & Hall & Hframes & Hdel & Hin & _).
    cbn [frames tasks_to_delete app] in Hframes, Hdel.
    destruct (Hin ltac:(now left)) as (d & Hd & Hnew).
    exists framess. split; [exact Hall|]. rewrite Hframes.
    destruct (new_frame_range (concat framess)) as [nfr|e] eqn:E.
    + right. exists nfr, d. split; [reflexivity|]. split; [exact Hd|].
      rewrite Hnew, Hdel. reflexivity.
    + left. split; [now exists e | reflexivity].
Qed.

Lemma task_frames_functional (t : tree) (jobID : string) (ids : list nat)
    (l1 l2 : list (list Z)) :
  Forall2 (fun id fr => task_frames t jobID id = Ok fr) ids l1 ->
  Forall2 (fun id fr => task_frames t jobID id = Ok fr) ids l2 ->
  l1 = l2.
Proof.
  intros H1. revert l2. induction H1 as [|id fr ids l1 Hfr _ IH]; intros l2 H2.
  - now inversion H2.
  - inversion H2 as [|? fr' ? l2' Hfr' Hrest]; subst.
    f_equal; [congruence | now apply IH].
Qed.

(** C3. A call of [combineTasks] that does not end in success leaves
    every file as it was. And when at least two tasks are listed, all of
    them queued with frames that read, and the union of their frames is
    not one contiguous ascending range, the call prints that the combined
    range must be contiguous and returns [None], with all files as they
    were: the check comes before any deletion. *)
Theorem combineTasks_gaps_no_mutation (self : RenderQueue) (jobID : string)
    (taskIDs : list nat) (w : world) :
  ((forall kept, snd (combineTasks self jobID taskIDs w) <> Ok (Some kept)) ->
   files (fst (combineTasks self jobID taskIDs w)) = files w) /\
  (forall framess : list (list Z),
     (2 <= length taskIDs)%nat ->
     Forall2 (fun id fr => task_frames (files w) jobID id = Ok fr) taskIDs framess ->
     ~ contiguous (concat framess) ->
     combineTasks self jobID taskIDs w =
     (logged [jobID +:+ " " +:+ repr_ids taskIDs; not_contiguous] w, Ok None)).
Proof.
  pose proof (combineTasks_cases self jobID taskIDs w) as Hcases. cbv zeta in Hcases.
  split.
  - intros Hfail.
    destruct Hcases as [[_ ->]|(first & rest & -> & _ & [(e & -> & _)|(fs & _ & [[_ ->]|(nfr & d & _ & _ & Heq)])])];
      try reflexivity.
    rewrite Heq in Hfail. now destruct (Hfail first).
  - intros framess Hlen Hall Hgap.
    destruct Hcases as [[Hlt _]|(first & rest & -> & _ & [(e & _ & Hno)|(fs & Hfs & [[_ ->]|(nfr & d & Hok & _ & _)])])].
    + lia.
    + exfalso. apply Hno. clear -Hall.
      induction Hall; constructor; eauto.
    + unfold logged. cbn [files stdout uuid_source uuid_drawn].
      now rewrite <- app_assoc.
    + rewrite (task_frames_functional _ _ _ _ _ Hfs Hall) in Hok.
      destruct (new_frame_range_gaps _ Hgap) as [e He]. congruence.
Qed.

(** [combineTasks_gaps_no_mutation] at work: the frames 1-5 and 8-10
    leave a gap. *)
Lemma combineTasks_gaps_no_mutation_witness :
  combineTasks example_rq "b" [0; 2]%nat combine_world =
  (logged ["b [0, 2]"; not_contiguous] combine_world, Ok None).
Proof.
  apply (proj2 (combineTasks_gaps_no_mutation example_rq "b" [0; 2]%nat combine_world)
           [[1; 2; 3; 4; 5]; [8; 9; 10]]).
  - simpl. lia.
  - repeat constructor.
  - intros (a & b & Hab & Hin).
    assert (H1 : a <= 1 <= b) by (apply Hin; simpl; tauto).
    assert (H10 : a <= 10 <= b) by (apply Hin; simpl; tauto).
    assert (H6 : In 6 (concat [[1; 2; 3; 4; 5]; [8; 9; 10]])) by (apply Hin; lia).
    simpl in H6. intuition discriminate.
Defined.

(** C4. When [combineTasks] succeeds, at least two tasks were listed,
    all of them queued; the union of their frames is one contiguous
    range from a first frame [a], which is not negative, to a last frame
    [b] above it; the call returns the first task of the list; that
    task's record is what it was except that its frames now read [a-b];
    the record of every other listed task is gone; and no other file has
    changed. *)
Theorem combineTasks_keeps_first (self : RenderQueue) (jobID : string)
    (taskIDs : list nat) (w : world) (kept : nat) :
  snd (combineTasks self jobID taskIDs w) = Ok (Some kept) ->
  let w' := fst (combineTasks self jobID taskIDs w) in
  exists first rest framess a b taskdata,
    taskIDs = first :: rest /\ rest <> [] /\ kept = first /\
    Forall2 (fun id fr => task_frames (files w) jobID id = Ok fr) taskIDs framess /\
    0 <= a < b /\ (forall x, In x (concat framess) <-> a <= x <= b) /\
    parsed (files w) (queued_file jobID first) = Ok taskdata /\
    parsed (files w') (queued_file jobID first) =
      Ok (<["frames" := VStr (Py.str_Z a +:+ "-" +:+ Py.str_Z b)]> taskdata) /\
    (forall id, In id rest -> id <> first ->
       FS.lookup (queued_file jobID id) (files w') = None) /\
    (forall p, (forall id, In id taskIDs -> p <> queued_file jobID id) ->
       FS.lookup p (files w') = FS.lookup p (files w)).
Proof.
  intros Hok w'. subst w'.
  pose proof (combineTasks_cases self jobID taskIDs w) as Hcases. cbv zeta in Hcases.
  destruct Hcases as [[_ Heq]|(first & rest & -> & Hrest & [(e & Heq & _)|(fs & Hfs & [[_ Heq]|(nfr & d & Hnfr & Hd & Heq)])])];
    rewrite Heq in Hok |- *; try discriminate.
  injection Hok as <-.
  apply new_frame_range_Ok in Hnfr as (a & b & Hab & Hin & ->).
  exists first, rest, fs, a, b, d.
  split; [reflexivity|]. split; [exact Hrest|]. split; [reflexivity|].
  split; [exact Hfs|]. split; [exact Hab|]. split; [exact Hin|]. split; [exact Hd|].
  cbn [fst files set_files]. unfold combined_tree. split; [|split].
  - unfold parsed. now rewrite lookup_write_eq.
  - intros id Hid Hne.
    rewrite lookup_write_ne by (intros H; now apply queued_file_inj in H).
    rewrite lookup_remove_all, bool_decide_eq_true_2; [reflexivity|].
    apply list_elem_of_In, in_map. unfold other_than. apply filter_In.
    split; [now right|]. apply negb_true_iff. now apply Nat.eqb_neq.
  - intros p Hp.
    rewrite lookup_write_ne by (apply Hp; now left).
    rewrite lookup_remove_all, bool_decide_eq_false_2; [reflexivity|].
    intros H. apply list_elem_of_In, in_map_iff in H as (id & <- & Hid).
    unfold other_than in Hid. apply filter_In in Hid as [Hid _].
    now apply (Hp id).
Qed.

(** [combineTasks_keeps_first] at work: the frames 1-5 and 6-10 become
    1-10 in task 0, and task 1 is gone. *)
Lemma combineTasks_keeps_first_witness :
  exists first rest framess a b taskdata,
    [0; 1]%nat = first :: rest /\ rest <> [] /\ 0%nat = first /\
    Forall2 (fun id fr => task_frames (files combine_world) "b" id = Ok fr)
            [0; 1]%nat framess /\
    0 <= a < b /\ (forall x, In x (concat framess) <-> a <= x <= b) /\
    parsed (files combine_world) (queued_file "b" first) = Ok taskdata /\
    parsed (files (fst (combineTasks example_rq "b" [0; 1]%nat combine_world)))
           (queued_file "b" first) =
      Ok (<["frames" := VStr (Py.str_Z a +:+ "-" +:+ Py.str_Z b)]> taskdata) /\
    (forall id, In id rest -> id <> first ->
       FS.lookup (queued_file "b" id)
         (files (fst (combineTasks example_rq "b" [0; 1]%nat combine_world))) = None) /\
    (forall p, (forall id, In id [0; 1]%nat -> p <> queued_file "b" id) ->
       FS.lookup p (files (fst (combineTasks example_rq "b" [0; 1]%nat combine_world))) =
       FS.lookup p (files combine_world)).
Proof.
  apply (combineTasks_keeps_first example_rq "b" [0; 1]%nat combine_world 0%nat).
  vm_compute. reflexivity.
Defined.

Example combineTasks_one_to_ten :
  snd (combineTasks example_rq "b" [0; 1]%nat combine_world) = Ok (Some 0%nat) /\
  map fst (files (fst (combineTasks example_rq "b" [0; 1]%nat combine_world))) =
    [ ["jobs"; "b.json"]; ["tasks"; "queued"; "b_0000.json"];
      ["tasks"; "queued"; "b_0002.json"] ] /\
  parsed (files (fst (combineTasks example_rq "b" [0; 1]%nat combine_world)))
         (queued_file "b" 0) = Ok (task_record "b" 0 (VStr "1-10")).
Proof. repeat split; vm_compute; reflexivity. Qed.

(** ** Requeuing a job *)

(** C8. Below the root [/srv/rq] the call [requeueJob] brings the
    completed, the failed and the claimed task of job [b] back into the
    queued area, next to the task that was queued already. Below the
    root [/mnt/queued_renders] the same call on the same files moves
    nothing: every file name mentions [queued], so the test
    ['queued' not in filename] is false for all of them, and the three
    tasks stay completed, failed and claimed. *)
Theorem requeueJob_stuck_below_queued_root :
  map fst (files (fst (requeueJob example_rq "b" requeue_world))) =
    [ ["jobs"; "b.json"];
      ["tasks"; "queued"; "b_0003.json"];
      ["tasks"; "queued"; "b_0000.json"];
      ["tasks"; "queued"; "b_0001.json"];
      ["tasks"; "queued"; "b_0002.json"] ] /\
  requeueJob queued_root_rq "b" requeue_world = (requeue_world, Ok tt) /\
  FS.glob (job_tasks_pattern "b") (files requeue_world) =
    [ ["tasks"; "completed"; "b_0000.json"];
      ["tasks"; "failed"; "b_0001.json"];
      ["workers"; "w1"; "b_0002.json"];
      ["tasks"; "queued"; "b_0003.json"] ].
Proof. repeat split; vm_compute; reflexivity. Qed.

Lemma requeue_loop_eq (self : RenderQueue) (names : list path) :
  forall w,
    for_each names (fun p =>
      if negb (Py.contains "queued" (FS.filename (db_root self) p))
      then oswrapper.move p db_queued
      else ret tt) w
    = (set_files (fold_left (requeue_step self) names (files w)) w, Ok tt).
Proof.
  induction names as [|p names IH]; intros w.
  - destruct w; reflexivity.
  - cbn [for_each fold_left]. unfold bind at 1, requeue_step at 2, stays.
    destruct (Py.contains "queued" (FS.filename (db_root self) p)); cbn [negb].
    + unfold ret at 1. apply IH.
    + unfold oswrapper.move at 1. fold (dest p).
      destruct (FS.lookup p (files w)); rewrite IH; reflexivity.
Qed.

Lemma requeueJob_eq (self : RenderQueue) (jobID : string) (w : world) :
  requeueJob self jobID w =
  (set_files (fold_left (requeue_step self)
                        (FS.glob (job_tasks_pattern jobID) (files w)) (files w)) w,
   Ok tt).
Proof. unfold requeueJob, glob, bind. apply requeue_loop_eq. Qed.


Lemma stays_queued (self : RenderQueue) (name : string) :
  stays self (db_queued ++ [name])%list = true.
Proof.
  unfold stays. apply contains_spec.
  exists (db_root self +:+ "/tasks/"), ("/" +:+ name).
  unfold FS.filename. cbn [db_queued app Py.join].
  rewrite !append_assoc. reflexivity.
Qed.

Lemma stays_dest (self : RenderQueue) (p : path) : stays self (dest p) = true.
Proof. apply stays_queued. Qed.


Lemma lookup_Some_In (p : path) (t : tree) (c : content) :
  FS.lookup p t = Some c -> In p (map fst t).
Proof.
  induction t as [|[q c'] t IH]; simpl; [discriminate|].
  destruct (FS.path_eqb p q) eqn:E.
  - apply path_eqb_true in E. now left.
  - intros H. right. now apply IH.
Qed.


Lemma requeue_fold_stays (self : RenderQueue) (names : list path) (t : tree) :
  (forall p, In p names -> stays self p = true) ->
  fold_left (requeue_step self) names t = t.
Proof.
  induction names as [|p names IH]; intros H; [reflexivity|].
  cbn [fold_left]. unfold requeue_step at 2. rewrite (H p) by now left.
  cbn [negb]. apply IH. intros q Hq. apply H. now right.
Qed.



(** ** Claiming a task *)



(** ** When combining succeeds *)

(** When at least two tasks are listed, all of them queued with frames
    that read, and the union of their frames is the range from a first
    frame [a], not negative, to a last frame [b] above it, then
    [combineTasks] succeeds and returns the first task of the list. *)
Theorem combineTasks_succeeds (self : RenderQueue) (jobID : string)
    (first : nat) (rest : list nat) (framess : list (list Z)) (a b : Z) (w : world) :
  rest <> [] ->
  Forall2 (fun id fr => task_frames (files w) jobID id = Ok fr) (first :: rest) framess ->
  0 <= a < b ->
  (forall x, In x (concat framess) <-> a <= x <= b) ->
  snd (combineTasks self jobID (first :: rest) w) = Ok (Some first).
Proof.
  intros Hrest Hall Hab Hin.
  pose proof (combineTasks_cases self jobID (first :: rest) w) as Hcases.
  cbv zeta in Hcases.
  destruct Hcases as [[Hlt _]|(first' & rest' & [= <- <-] & _ & [(e & _ & Hno)|(fs & Hfs & [[Hfail _]|(nfr & d & _ & _ & ->)])])].
  - destruct rest; [congruence | simpl in Hlt; lia].
  - exfalso. apply Hno. clear -Hall. induction Hall; constructor; eauto.
  - rewrite (task_frames_functional _ _ _ _ _ Hfs Hall) in Hfail.
    rewrite (new_frame_range_contiguous _ a b Hab Hin) in Hfail.
    destruct Hfail as [e He]. discriminate.
  - reflexivity.
Qed.

(** [combineTasks_succeeds] at work on the frames 1-5 and 6-10. *)
Lemma combineTasks_succeeds_witness :
  snd (combineTasks example_rq "b" [0; 1]%nat combine_world) = Ok (Some 0%nat).
Proof.
  apply (combineTasks_succeeds example_rq "b" 0%nat [1%nat]
           [[1; 2; 3; 4; 5]; [6; 7; 8; 9; 10]] 1 10 combine_world).
  - discriminate.
  - repeat constructor.
  - lia.
  - intros x. simpl. lia.
Defined.

(** ** Deleting a job *)





Lemma lookup_filter_keep (f : path * content -> bool) (p : path) (t : tree) :
  (forall c, f (p, c) = true) ->
  FS.lookup p (List.filter f t) = FS.lookup p t.
Proof.
  intros Hf. induction t as [|[q c] t IH]; [reflexivity|].
  cbn [List.filter FS.lookup]. unfold FS.path_eqb.
  destruct (decide (p = q)) as [<-|N].
  - rewrite Hf. cbn [FS.lookup]. unfold FS.path_eqb.
    now rewrite !bool_decide_eq_true_2 by reflexivity.
  - rewrite (bool_decide_eq_false_2 (p = q)) by assumption.
    destruct (f (q, c)); [|apply IH].
    cbn [FS.lookup]. unfold FS.path_eqb.
    now rewrite (bool_decide_eq_false_2 (p = q)) by assumption.
Qed.

Lemma lookup_filter_drop (f : path * content -> bool) (p : path) (t : tree) :
  (forall c, f (p, c) = false) ->
  FS.lookup p (List.filter f t) = None.
Proof.
  intros Hf. apply lookup_None. intros Hin.
  apply in_map_iff in Hin as [[q c] [E Hin]]. cbn [fst] in E. subst q.
  apply filter_In in Hin as [_ Hin]. rewrite Hf in Hin. discriminate.
Qed.









(** ** Submitting and deleting *)





(** ** Moving a task between the areas *)

Lemma relocate_loop_eq (self : RenderQueue) (word : string) (area : path)
    (names : list path) :
  forall w,
    for_each names (fun p =>
      if negb (Py.contains word (FS.filename (db_root self) p))
      then oswrapper.move p area
      else ret tt) w
    = (set_files (fold_left (relocate_step self word area) names (files w)) w, Ok tt).
Proof.
  induction names as [|p names IH]; intros w.
  - destruct w; reflexivity.
  - cbn [for_each fold_left]. unfold bind at 1, relocate_step at 2.
    destruct (Py.contains word (FS.filename (db_root self) p)); cbn [negb].
    + unfold ret at 1. apply IH.
    + unfold oswrapper.move at 1.
      destruct (FS.lookup p (files w)); rewrite IH; reflexivity.
Qed.

Lemma relocate_task_eq (self : RenderQueue) (jobID : string) (taskID : nat)
    (word : string) (area : path) (w : world) :
  relocate_task self jobID taskID word area w =
  (set_files (fold_left (relocate_step self word area)
                        (FS.glob (task_pattern jobID taskID) (files w)) (files w)) w,
   Ok tt).
Proof. unfold relocate_task, glob, bind. apply relocate_loop_eq. Qed.













(** ** A task from the queue to a worker and back *)

Lemma dequeueTask_eq (self : RenderQueue) (jobID : string) (taskID : nat)
    (workerID : string) (w : world) :
  dequeueTask self jobID taskID workerID w =
  match FS.lookup (queued_file jobID taskID) (files w) with
  | None => (w, Ok tt)
  | Some c =>
      (set_files (FS.write (claimed_file workerID jobID taskID) c
                    (FS.remove (queued_file jobID taskID) (files w))) w, Ok tt)
  end.
Proof. reflexivity. Qed.







(** ** Workers *)


Lemma getWorkerStatus_eq (self : RenderQueue) (workerID : string) (w : world) :
  getWorkerStatus self workerID w =
  (w, match parsed (files w) (worker_file workerID) with
      | Ok worker => getitem worker "status"
      | Raise e => Raise e
      end).
Proof.
  unfold getWorkerStatus, bind. rewrite read_json_parsed.
  change (db_workers ++ [workerID; "workerinfo.json"])%list with (worker_file workerID).
  now destruct (parsed (files w) (worker_file workerID)).
Qed.

Lemma setWorkerStatus_eq (self : RenderQueue) (workerID : string) (status : value)
    (w : world) :
  setWorkerStatus self workerID status w =
  match parsed (files w) (worker_file workerID) with
  | Raise e => (w, Raise e)
  | Ok worker =>
      match worker !! "status" with
      | None => (w, Raise (KeyError "status"))
      | Some old =>
          if bool_decide (old <> status) then
            (World (FS.write (worker_file workerID)
                             (Json (<["status" := status]> worker)) (files w))
                   (stdout w ++ [Py.str status]) (uuid_source w) (uuid_drawn w), Ok tt)
          else (w, Ok tt)
      end
  end.
Proof.
  unfold setWorkerStatus. unfold bind at 1. rewrite read_json_parsed.
  change (db_workers ++ [workerID; "workerinfo.json"])%list with (worker_file workerID).
  destruct (parsed (files w) (worker_file workerID)) as [worker|e]; [|reflexivity].
  unfold bind at 1, lift, getitem.
  destruct (worker !! "status") as [old|]; [|reflexivity].
  destruct (bool_decide (old <> status)); reflexivity.
Qed.





(** For a worker whose record is readable and has a status,
    [setWorkerStatus] returns normally and [getWorkerStatus] then yields
    the status that was set; the other fields of the record and all
    other files are as they were. When the status is the one the record
    holds already nothing is written or printed; otherwise the new
    status is printed, once. *)
Theorem setWorkerStatus_round_trip (self : RenderQueue) (workerID : string)
    (status : value) (w : world) (worker : dict) (old : value) :
  parsed (files w) (worker_file workerID) = Ok worker ->
  worker !! "status" = Some old ->
  let w' := fst (setWorkerStatus self workerID status w) in
  snd (setWorkerStatus self workerID status w) = Ok tt /\
  getWorkerStatus self workerID w' = (w', Ok status) /\
  parsed (files w') (worker_file workerID) = Ok (<["status" := status]> worker) /\
  (forall p, p <> worker_file workerID -> FS.lookup p (files w') = FS.lookup p (files w)) /\
  (old = status -> w' = w) /\
  (old <> status -> stdout w' = (stdout w ++ [Py.str status])%list) /\
  setWorkerStatus self workerID status w' = (w', Ok tt).
Proof.
  intros Hworker Hold w'. unfold w'. rewrite setWorkerStatus_eq, Hworker, Hold.
  destruct (decide (old = status)) as [->|Hne].
  - rewrite bool_decide_eq_false_2 by tauto. cbn [fst snd].
    assert (Hsame : <["status" := status]> worker = worker) by now apply insert_id.
    split; [reflexivity|]. split.
    { rewrite getWorkerStatus_eq, Hworker. unfold getitem. now rewrite Hold. }
    split; [now rewrite Hsame|]. split; [reflexivity|]. split; [reflexivity|].
    split; [tauto|].
    rewrite setWorkerStatus_eq, Hworker, Hold.
    now rewrite bool_decide_eq_false_2 by tauto.
  - rewrite bool_decide_eq_true_2 by assumption. cbn [fst snd files stdout].
    assert (Hnew : parsed (FS.write (worker_file workerID)
                             (Json (<["status" := status]> worker)) (files w))
                          (worker_file workerID) = Ok (<["status" := status]> worker)).
    { unfold parsed. now rewrite lookup_write_eq. }
    split; [reflexivity|]. split.
    { rewrite getWorkerStatus_eq. cbn [files]. rewrite Hnew. unfold getitem.
      now rewrite lookup_insert_eq. }
    split; [exact Hnew|]. split.
    { intros p Hp. now apply lookup_write_ne. }
    split; [tauto|]. split; [reflexivity|].
    rewrite setWorkerStatus_eq. cbn [files]. rewrite Hnew, lookup_insert_eq.
    now rewrite bool_decide_eq_false_2 by tauto.
Qed.

Lemma setWorkerStatus_round_trip_witness :
  snd (getWorkerStatus example_rq "w2"
         (fst (setWorkerStatus example_rq "w2" (VStr "rendering") corrupt_world))) =
  Ok (VStr "rendering").
Proof.
  destruct (setWorkerStatus_round_trip example_rq "w2" (VStr "rendering") corrupt_world
              example_worker (VStr "idle") eq_refl eq_refl) as (_ & H & _).
  exact (f_equal snd H).
Defined.

(** ** Removing a file and removing a directory *)

Lemma below_refl (p : path) : below p p = true.
Proof. induction p as [|c p IH]; [reflexivity|]. cbn [below]. now rewrite String.eqb_refl. Qed.

(** On a path with nothing below it, removing the directory is removing
    the file: the two readings of [oswrapper.recurseRemove] agree. *)
Lemma recurseRemoveDir_file (p : path) (w : world) :
  (forall q, In q (map fst (files w)) -> below p q = true -> q = p) ->
  recurseRemoveDir p w = oswrapper.recurseRemove p w.
Proof.
  intros Hleaf. unfold recurseRemoveDir, oswrapper.recurseRemove, FS.remove.
  f_equal. f_equal. apply filter_ext_in. intros [q c] Hin. cbn [fst]. f_equal.
  destruct (below p q) eqn:Hb.
  - rewrite (Hleaf q); [now rewrite path_eqb_refl | | assumption].
    apply in_map_iff. now exists (q, c).
  - rewrite path_eqb_ne; [reflexivity|]. intros <-. now rewrite below_refl in Hb.
Qed.

Lemma deleteWorker_eq (self : RenderQueue) (workerID : string) (w : world) :
  deleteWorker self workerID w =
  (set_files (List.filter (fun e => negb (below ["workers"; workerID] (fst e)))
                          (files w)) w, Ok true).
Proof. reflexivity. Qed.

Lemma In_write (p q : path) (c : content) (t : tree) :
  In p (map fst (FS.write q c t)) -> p = q \/ In p (map fst t).
Proof.
  intros Hin. destruct (decide (p = q)) as [->|Hne]; [now left|right].
  apply lookup_In in Hin as [c' Hc']. rewrite lookup_write_ne in Hc' by assumption.
  eapply lookup_Some_In. exact Hc'.
Qed.

Lemma glob_empty (pts : list FS.pat) (t : tree) :
  (forall p, In p (map fst t) -> FS.match_path pts p = false) -> FS.glob pts t = [].
Proof.
  intros H. destruct (FS.glob pts t) as [|p l] eqn:E; [reflexivity|exfalso].
  assert (Hin : In p (FS.glob pts t)) by (rewrite E; now left).
  apply glob_In in Hin as [Hin Hm]. rewrite (H p Hin) in Hm. discriminate.
Qed.

(** [deleteWorker] returns [True] and leaves nothing below the directory
    of the worker: the record of the worker goes, and with it the
    records of the tasks that the worker had claimed. A task that was
    claimed from the queue is then in no area at all: it is not put back
    into the queue, and [requeueTask] finds nothing to requeue. Files
    outside the directory of the worker are not touched. *)
Theorem deleteWorker_loses_claimed_task (self : RenderQueue) (jobID : string)
    (taskID : nat) (workerID : string) (w : world) (c : content) :
  FS.glob (task_pattern jobID taskID) (files w) = [queued_file jobID taskID] ->
  FS.lookup (queued_file jobID taskID) (files w) = Some c ->
  let w1 := fst (dequeueTask self jobID taskID workerID w) in
  let w2 := fst (deleteWorker self workerID w1) in
  FS.lookup (claimed_file workerID jobID taskID) (files w1) = Some c /\
  snd (deleteWorker self workerID w1) = Ok true /\
  (forall p, below ["workers"; workerID] p = true -> FS.lookup p (files w2) = None) /\
  (forall p, below ["workers"; workerID] p = false ->
     FS.lookup p (files w2) = FS.lookup p (files w1)) /\
  FS.glob (task_pattern jobID taskID) (files w2) = [] /\
  requeueTask self jobID taskID w2 = (w2, Ok tt).
Proof.
  intros Hglob Hc w1 w2.
  assert (Hw1 : w1 = set_files (FS.write (claimed_file workerID jobID taskID) c
                                  (FS.remove (queued_file jobID taskID) (files w))) w).
  { unfold w1. now rewrite dequeueTask_eq, Hc. }
  assert (Hglob2 : FS.glob (task_pattern jobID taskID) (files w2) = []).
  { apply glob_empty. intros p Hin.
    destruct (FS.match_path (task_pattern jobID taskID) p) eqn:Hm; [exfalso|reflexivity].
    unfold w2 in Hin. rewrite deleteWorker_eq in Hin. cbn [fst files set_files] in Hin.
    apply in_map_iff in Hin as [[q c'] [E Hin]]. cbn [fst] in E. subst q.
    apply filter_In in Hin as [Hin Hkeep]. cbn [fst] in Hkeep.
    assert (Hin1 : In p (map fst (files w1))).
    { apply in_map_iff. now exists (p, c'). }
    rewrite Hw1 in Hin1. cbn [files set_files] in Hin1.
    apply In_write in Hin1 as [->|Hin1].
    - unfold claimed_file in Hkeep. cbn [below] in Hkeep.
      rewrite !String.eqb_refl in Hkeep. discriminate.
    - apply in_map_iff in Hin1 as [[q c''] [E Hin1]]. cbn [fst] in E. subst q.
      apply filter_In in Hin1 as [Hin1 Hq]. cbn [fst] in Hq.
      assert (Hg : In p (FS.glob (task_pattern jobID taskID) (files w))).
      { apply glob_In. split; [|assumption]. apply in_map_iff. now exists (p, c''). }
      rewrite Hglob in Hg. destruct Hg as [<-|[]].
      now rewrite path_eqb_refl in Hq. }
  split.
  { rewrite Hw1. cbn [files set_files]. apply lookup_write_eq. }
  split; [reflexivity|]. split.
  { intros p Hp. unfold w2. rewrite deleteWorker_eq. cbn [fst files set_files].
    apply lookup_filter_drop. intros c'. cbn [fst]. now rewrite Hp. }
  split.
  { intros p Hp. unfold w2. rewrite deleteWorker_eq. cbn [fst files set_files].
    apply lookup_filter_keep. intros c'. cbn [fst]. now rewrite Hp. }
  split; [exact Hglob2|].
  unfold requeueTask. rewrite relocate_task_eq, Hglob2. cbn [fold_left].
  now destruct w2.
Qed.

Lemma deleteWorker_loses_claimed_task_witness :
  FS.glob (task_pattern "b" 0)
    (files (fst (deleteWorker example_rq "w1"
                   (fst (dequeueTask example_rq "b" 0 "w1" queue_world))))) = [].
Proof.
  apply (deleteWorker_loses_claimed_task example_rq "b" 0 "w1" queue_world
           (Json (task_record "b" 0 (VStr "1-5")))); reflexivity.
Defined.

(** ** Reading the priority back *)

Lemma getPriority_eq (self : RenderQueue) (jobID : string) (w : world) :
  getPriority self jobID w =
  (w, match parsed (files w) (job_file jobID) with
      | Ok job => getitem job "priority"
      | Raise e => Raise e
      end).
Proof.
  unfold getPriority, bind. rewrite read_json_parsed.
  change (db_jobs ++ [jobID +:+ ".json"])%list with (job_file jobID).
  now destruct (parsed (files w) (job_file jobID)).
Qed.

Lemma setPriority_eq (self : RenderQueue) (jobID : string) (priority : Z) (w : world) :
  setPriority self jobID priority w =
  match parsed (files w) (job_file jobID) with
  | Raise e => (w, Raise e)
  | Ok job =>
      if in_range priority then
        match job !! "priority" with
        | None => (w, Raise (KeyError "priority"))
        | Some old =>
            if bool_decide (old <> VInt priority) then
              (set_files (FS.write (job_file jobID)
                            (Json (<["priority" := VInt priority]> job)) (files w)) w,
               Ok tt)
            else (w, Ok tt)
        end
      else (w, Ok tt)
  end.
Proof.
  unfold setPriority. unfold bind at 1. rewrite read_json_parsed.
  change (db_jobs ++ [jobID +:+ ".json"])%list with (job_file jobID).
  destruct (parsed (files w) (job_file jobID)) as [job|e]; [|reflexivity].
  unfold in_range. destruct ((0 <=? priority) && (priority <=? 100)); [|reflexivity].
  unfold bind, lift, getitem.
  destruct (job !! "priority") as [old|]; [|reflexivity].
  destruct (bool_decide (old <> VInt priority)); reflexivity.
Qed.

(** For a job whose record is readable and has a priority,
    [getPriority] after [setPriority] yields the value that was set when
    it lies in 0..100 and the former priority otherwise. [setPriority]
    prints nothing and leaves the other fields of the record and every
    other file as they were. *)
Theorem setPriority_getPriority (self : RenderQueue) (jobID : string) (priority : Z)
    (w : world) (job : dict) (old : value) :
  parsed (files w) (job_file jobID) = Ok job ->
  job !! "priority" = Some old ->
  let w' := fst (setPriority self jobID priority w) in
  getPriority self jobID w' = (w', Ok (if in_range priority then VInt priority else old)) /\
  (exists job', parsed (files w') (job_file jobID) = Ok job' /\
     forall k, k <> "priority" -> job' !! k = job !! k) /\
  (forall p, p <> job_file jobID -> FS.lookup p (files w') = FS.lookup p (files w)) /\
  stdout w' = stdout w.
Proof.
  intros Hjob Hold w'. unfold w'. rewrite setPriority_eq, Hjob, Hold.
  destruct (in_range priority).
  - destruct (decide (old = VInt priority)) as [->|Hne].
    + rewrite bool_decide_eq_false_2 by tauto. cbn [fst].
      split; [|split; [|split]]; try reflexivity.
      * rewrite getPriority_eq, Hjob. unfold getitem. now rewrite Hold.
      * exists job. now split.
    + rewrite bool_decide_eq_true_2 by assumption. cbn [fst files set_files stdout].
      assert (Hnew : parsed (FS.write (job_file jobID)
                               (Json (<["priority" := VInt priority]> job)) (files w))
                            (job_file jobID) = Ok (<["priority" := VInt priority]> job)).
      { unfold parsed. now rewrite lookup_write_eq. }
      split; [|split; [|split]]; try reflexivity.
      * rewrite getPriority_eq. cbn [files set_files]. rewrite Hnew. unfold getitem.
        now rewrite lookup_insert_eq.
      * eexists. split; [exact Hnew|]. intros k Hk. now apply lookup_insert_ne.
      * intros p Hp. now apply lookup_write_ne.
  - cbn [fst]. split; [|split; [|split]]; try reflexivity.
    + rewrite getPriority_eq, Hjob. unfold getitem. now rewrite Hold.
    + exists job. now split.
Qed.

Lemma setPriority_getPriority_witness :
  snd (getPriority example_rq "b" (fst (setPriority example_rq "b" 75 priority_world))) =
  Ok (VInt 75).
Proof.
  destruct (setPriority_getPriority example_rq "b" 75 priority_world example_job
              (VInt 50) eq_refl eq_refl) as (H & _).
  exact (f_equal snd H).
Defined.

(** ** A job record without a priority *)

Lemma keys_missing (k : string) (l : list dict) (job : dict) :
  In job l -> job !! k = None ->
  Sort.keys (fun j : dict => getitem j k) l = Raise (KeyError k).
Proof.
  intros Hin Hnone. induction l as [|x l IH]; [destruct Hin|].
  cbn [Sort.keys]. unfold getitem at 1.
  destruct (x !! k) as [v|] eqn:Hx; [|reflexivity].
  destruct Hin as [->|Hin]; [congruence|].
  now rewrite (IH Hin).
Qed.

(** One job record without a [priority] stops the scheduler for all
    jobs: when the job records are readable and one of them lacks the
    field, [dequeueJob] raises [KeyError] before it looks at any task,
    hands out nothing, prints nothing and changes nothing, however many
    tasks of other jobs are queued. *)
Theorem dequeueJob_blocked_by_missing_priority (self : RenderQueue) (w : world)
    (jobs : list dict) (job : dict) :
  snd (getJobs self w) = Ok jobs ->
  In job jobs ->
  job !! "priority" = None ->
  dequeueJob self w = (w, Raise (KeyError "priority")).
Proof.
  intros Hjobs Hin Hnone. rewrite (dequeueJob_eq self w jobs Hjobs).
  unfold Sort.sorted. now rewrite (keys_missing "priority" jobs job Hin Hnone).
Qed.

Lemma dequeueJob_blocked_by_missing_priority_witness :
  dequeueJob example_rq blocked_world = (blocked_world, Raise (KeyError "priority")).
Proof.
  apply (dequeueJob_blocked_by_missing_priority example_rq blocked_world
           [example_job; unprioritised_job] unprioritised_job).
  - reflexivity.
  - right. left. reflexivity.
  - reflexivity.
Defined.

(** ** From submission to the scheduler *)













(** ** A root directory that bears the name of an area *)

Lemma root_mentions (word root : string) (p : path) :
  occurs_in word root -> Py.contains word (FS.filename root p) = true.
Proof.
  intros (pre & post & ->). apply contains_spec.
  exists pre, (post +:+ "/" +:+ Py.join "/" p).
  unfold FS.filename. now rewrite !append_assoc.
Qed.

Lemma relocate_fold_stays (self : RenderQueue) (word : string) (area : path)
    (names : list path) (t : tree) :
  (forall p, In p names -> Py.contains word (FS.filename (db_root self) p) = true) ->
  fold_left (relocate_step self word area) names t = t.
Proof.
  induction names as [|p names IH]; intros H; [reflexivity|].
  cbn [fold_left]. unfold relocate_step at 2. rewrite (H p) by now left.
  cbn [negb]. apply IH. intros q Hq. apply H. now right.
Qed.

Lemma relocate_task_stuck (self : RenderQueue) (jobID : string) (taskID : nat)
    (word : string) (area : path) (w : world) :
  occurs_in word (db_root self) ->
  relocate_task self jobID taskID word area w = (w, Ok tt).
Proof.
  intros Hroot. rewrite relocate_task_eq, relocate_fold_stays.
  - now destruct w.
  - intros p _. now apply root_mentions.
Qed.

(** The tests on the file name look at the whole path, the root
    directory included. Below a root directory whose name mentions
    [completed], [completeTask] therefore moves no task, whichever task
    and whatever the state of the database: it returns normally and
    changes nothing. The same holds for [failTask] below a root that
    mentions [failed], and for [requeueTask] and [requeueJob] below a
    root that mentions [queued]. *)
Theorem root_named_after_area_blocks_moves (self : RenderQueue) (jobID : string)
    (taskID : nat) (w : world) :
  (occurs_in "completed" (db_root self) ->
     completeTask self jobID taskID w = (w, Ok tt)) /\
  (occurs_in "failed" (db_root self) ->
     failTask self jobID taskID w = (w, Ok tt)) /\
  (occurs_in "queued" (db_root self) ->
     requeueTask self jobID taskID w = (w, Ok tt) /\
     requeueJob self jobID w = (w, Ok tt)).
Proof.
  split; [|split]; intros Hroot.
  - now apply relocate_task_stuck.
  - now apply relocate_task_stuck.
  - split; [now apply relocate_task_stuck|].
    rewrite requeueJob_eq, requeue_fold_stays.
    + now destruct w.
    + intros p _. unfold stays. now apply root_mentions.
Qed.

Lemma root_named_after_area_blocks_moves_witness :
  requeueTask queued_root_rq "b" 0 requeue_world = (requeue_world, Ok tt).
Proof.
  apply (root_named_after_area_blocks_moves queued_root_rq "b" 0 requeue_world).
  exists "/mnt/", "_renders". reflexivity.
Defined.
